(** * goflyway2: the upstream proxy server (proxy/server.go)

    A shallow embedding of the request dispatcher [ServeHTTP], the success
    framing [replyGood], the authentication check [auth], and the local
    reverse proxy controller [startLocalRPControlServer] with its routing
    loop and heartbeat exit.

    Conventions of the embedding.
    - Connections and channels are Go reference values; they are represented
      by identities ([Conn], [chan]); a nil interface or nil channel is [None].
    - Every handler is a function from the shared [ProxyServer] state to an
      [outcome]: the state it leaves and the trace of effects it performed
      (writes, closes, channel sends, goroutines started), in program order.
      A handler that parks in the [select] of the decode-failure path yields
      [AwaitSelect]; [ServeHTTP_select] is the code that runs when the
      select fires, on the state the server has at that moment.
    - A send on a channel is an effect of the trace; how long it waits for
      room or for a receiver is not modelled. A send on a nil channel never
      completes: the goroutine stays where it is ([BlockedForever]).
    - Results of I/O (hijacking, dialling, the clock, the random source, fresh
      allocations) are supplied by a [World] record.
    - Functions of the package that live in other files (the envelope codec,
      the option constants, the cipher) are fields of the class [Externals].
    - Logger calls change neither state nor control flow and are left out. *)

From Stdlib Require Import ZArith List String Ascii Lia.
From stdpp Require Import base gmap strings list option.

(** ** Bytes and text *)

Abbreviation bytes := (list Z).

Definition str_bytes (s : string) : bytes :=
  map (fun c => Z.of_nat (nat_of_ascii c)) (list_ascii_of_string s).

Definition CR : string := String "013"%char EmptyString.
Definition LF : string := String "010"%char EmptyString.
Definition CRLF : string := CR +:+ LF.
Definition DQUOTE : string := String "034"%char EmptyString.

(** crypto/sha1: SHA-1 as in FIPS 180-4, on byte lists, 32-bit words kept in
    [Z] with the wrap-around written out. *)
Module sha1.
Local Open Scope Z_scope.

Definition w32 (x : Z) : Z := x mod 2^32.

Definition rotl (n x : Z) : Z :=
  Z.lor (w32 (Z.shiftl x n)) (Z.shiftr (w32 x) (32 - n)).

Definition be64 (n : Z) : bytes :=
  map (fun i => Z.shiftr n (8 * i) mod 256) [7; 6; 5; 4; 3; 2; 1; 0].

Definition be32 (x : Z) : bytes :=
  map (fun i => Z.shiftr x (8 * i) mod 256) [3; 2; 1; 0].

Definition pad (m : bytes) : bytes :=
  let l := Z.of_nat (length m) in
  m ++ [128] ++ replicate (Z.to_nat ((55 - l) mod 64)) 0 ++ be64 (8 * l).

Fixpoint words (b : bytes) : list Z :=
  match b with
  | a :: b :: c :: d :: r => (((a * 256 + b) * 256 + c) * 256 + d) :: words r
  | _ => []
  end.

Fixpoint blocks (n : nat) (ws : list Z) : list (list Z) :=
  match n with
  | O => []
  | S n' =>
      match ws with
      | [] => []
      | _ => take 16 ws :: blocks n' (drop 16 ws)
      end
  end.

(** The message schedule, newest word first while it is being extended. *)
Fixpoint extend (n : nat) (rev_w : list Z) : list Z :=
  match n with
  | O => rev_w
  | S n' =>
      let g i := nth i rev_w 0 in
      extend n'
        (rotl 1 (Z.lxor (Z.lxor (g 2%nat) (g 7%nat))
                        (Z.lxor (g 13%nat) (g 15%nat))) :: rev_w)
  end.

Definition schedule (blk : list Z) : list Z := rev (extend 64 (rev blk)).

Definition f (t : nat) (b c d : Z) : Z :=
  if (t <? 20)%nat then Z.lor (Z.land b c) (Z.land (Z.lxor b (2^32 - 1)) d)
  else if (t <? 40)%nat then Z.lxor (Z.lxor b c) d
  else if (t <? 60)%nat then
    Z.lor (Z.lor (Z.land b c) (Z.land b d)) (Z.land c d)
  else Z.lxor (Z.lxor b c) d.

Definition K (t : nat) : Z :=
  if (t <? 20)%nat then 0x5A827999
  else if (t <? 40)%nat then 0x6ED9EBA1
  else if (t <? 60)%nat then 0x8F1BBCDC
  else 0xCA62C1D6.

Definition state : Type := Z * Z * Z * Z * Z.

Definition round (s : state) (tw : nat * Z) : state :=
  let '(a, b, c, d, e) := s in
  let '(t, w) := tw in
  (w32 (rotl 5 a + f t b c d + e + w + K t), a, rotl 30 b, c, d).

Definition compress (h : state) (blk : list Z) : state :=
  let '(h0, h1, h2, h3, h4) := h in
  let '(a, b, c, d, e) :=
    fold_left round (combine (seq 0 80) (schedule blk)) h in
  (w32 (h0 + a), w32 (h1 + b), w32 (h2 + c), w32 (h3 + d), w32 (h4 + e)).

Definition init : state :=
  (0x67452301, 0xEFCDAB89, 0x98BADCFE, 0x10325476, 0xC3D2E1F0).

Definition Sum (m : bytes) : bytes :=
  let ws := words (pad m) in
  let '(h0, h1, h2, h3, h4) :=
    fold_left compress (blocks (length ws) ws) init in
  be32 h0 ++ be32 h1 ++ be32 h2 ++ be32 h3 ++ be32 h4.
End sha1.

(** encoding/base64: [StdEncoding] of RFC 4648, with padding. *)
Module base64.
Local Open Scope Z_scope.

Definition alphabet : string :=
  "ABCDEFGHIJKLMNOPQRSTUVWXYZabcdefghijklmnopqrstuvwxyz0123456789+/".

Definition enc (i : Z) : ascii :=
  match String.get (Z.to_nat (i mod 64)) alphabet with
  | Some c => c
  | None => "="%char
  end.

Fixpoint EncodeToString (b : bytes) : string :=
  match b with
  | [] => EmptyString
  | [x] => String (enc (x / 4)) (String (enc (x mod 4 * 16)) "==")
  | [x; y] =>
      String (enc (x / 4)) (String (enc (x mod 4 * 16 + y / 16))
        (String (enc (y mod 16 * 4)) "="))
  | x :: y :: z :: r =>
      String (enc (x / 4)) (String (enc (x mod 4 * 16 + y / 16))
        (String (enc (y mod 16 * 4 + z / 64)) (String (enc (z mod 64))
          (EncodeToString r))))
  end.
End base64.

(** fmt.Sprintf("%x", b) on a byte slice: two lower-case digits per byte. *)
Definition hexdigit (n : Z) : ascii :=
  match String.get (Z.to_nat (n mod 16)%Z) "0123456789abcdef" with
  | Some c => c
  | None => "0"%char
  end.

Fixpoint hex (b : bytes) : string :=
  match b with
  | [] => EmptyString
  | x :: r => String (hexdigit (x / 16)%Z) (String (hexdigit x) (hex r))
  end.

(** encoding/binary, [BigEndian]. *)
Definition uint32 (n : Z) : Z := (n mod 2^32)%Z.

Definition PutUint32 (v : Z) : bytes :=
  [Z.shiftr v 24 mod 256; Z.shiftr v 16 mod 256; Z.shiftr v 8 mod 256;
   v mod 256]%Z.

Definition Uint32 (b : bytes) : Z :=
  match b with
  | [a; b; c; d] => (((a * 256 + b) * 256 + c) * 256 + d)%Z
  | _ => 0%Z
  end.

(** [copy(buf[off:], src)]: overwrite [buf] from offset [off] with as much of
    [src] as fits; the length of [buf] does not change. *)
Definition copy_at (off : nat) (src buf : bytes) : bytes :=
  take off buf ++ take (length buf - off) src ++ drop (off + length src) buf.

(** ** Data model *)

Definition Conn := nat.
Definition chan := nat.
Definition DummyConnWrapper := nat.

Inductive wsctrl := wsNone | wsServer.

Record IOConfig := {
  Bucket : option (Z * Z);
  Partial : bool;
  WSCtrl : wsctrl
}.

Record clientRequest := {
  Auth : string;
  Query : string;
  Opt : Z;
  iv : bytes
}.

Record UserConfig := {
  UserConfig_Auth : string;
  UserConfig_Throttling : Z;
  UserConfig_ThrottlingMax : Z
}.

Record localRPCtrlSrvReq := {
  dst : string;
  end_ : bool;
  conn : option Conn;
  callback : option chan;
  rawReq : bytes
}.

Record localRPCtrlSrvResp := {
  err : option string;
  localrpr : string;
  req : localRPCtrlSrvReq
}.

(** The zero value of [localRPCtrlSrvReq]. *)
Definition zeroReq : localRPCtrlSrvReq :=
  {| dst := ""; end_ := false; conn := None; callback := None; rawReq := [] |}.

Record Request := {
  RemoteAddr : string;
  RequestURI : string;
  Header : gmap string string
}.

Definition Header_Get (r : Request) (k : string) : string :=
  default "" (Header r !! k).

(** Modelled from the spec: the address-keyed cache of section 4.4 (package
    lru, not in this file). [record] increments or inserts, [hits] is the
    current count and 0 when absent, the capacity is fixed and the least
    recently used entries are evicted. [ll] is most recent first. *)
Record lruCache := {
  maxEntries : nat;
  ll : list (string * Z)
}.

Definition NewCache (n : nat) : lruCache := {| maxEntries := n; ll := [] |}.

Definition lru_hits (c : lruCache) (k : string) : Z :=
  match list_find (fun e => e.1 = k) (ll c) with
  | Some (_, (_, h)) => h
  | None => 0%Z
  end.

Definition lru_Add (k : string) (c : lruCache) : lruCache :=
  {| maxEntries := maxEntries c;
     ll := take (maxEntries c)
             ((k, (lru_hits c k + 1)%Z) :: filter (fun e => e.1 ≠ k) (ll c)) |}.

Inductive handler :=
| ReverseProxy (target : string)
| FileServer (root : string).

Record localRP_state := {
  downstreams : list Conn;
  downConns : list DummyConnWrapper;
  requests : option chan;
  waiting : option (gmap string localRPCtrlSrvResp)
}.

Record ServerConfig := {
  Throttling : Z;
  ThrottlingMax : Z;
  LBindTimeout : Z;
  LBindCap : Z;
  DisableUDP : bool;
  DisableLRP : bool;
  ProxyPassAddr : string;
  Users : option (gmap string UserConfig)
}.

Record ProxyServer := {
  rp : option handler;
  blacklist : lruCache;
  localRP : localRP_state;
  config : ServerConfig
}.

Definition set_localRP (l : localRP_state) (p : ProxyServer) : ProxyServer :=
  {| rp := rp p; blacklist := blacklist p; localRP := l; config := config p |}.

Definition set_blacklist (b : lruCache) (p : ProxyServer) : ProxyServer :=
  {| rp := rp p; blacklist := b; localRP := localRP p; config := config p |}.

Definition set_waiting (wm : option (gmap string localRPCtrlSrvResp))
    (l : localRP_state) : localRP_state :=
  {| downstreams := downstreams l; downConns := downConns l;
     requests := requests l; waiting := wm |}.

(** ** Effects *)

Inductive endpoint :=
| NetConn (c : option Conn)
| Dummy (d : DummyConnWrapper).

Inductive goroutine :=
| Bridge (a b : endpoint) (key : bytes) (ioc : IOConfig)
| RoutingLoop
| Heartbeat (connw : DummyConnWrapper) (downstream : Conn)
| ConnwWrite (connw : DummyConnWrapper) (buf : bytes).

Inductive event :=
| WriteHeader (code : Z)
| WriteBody (body : bytes)
| HeaderAdd (k v : string)
| Passthrough (h : handler)
| ConnWrite (c : Conn) (b : bytes)
| ConnClose (c : Conn)
| MakeChan (q : chan) (capacity : Z)
| SendReq (q : chan) (m : localRPCtrlSrvReq)
| SendResp (cb : chan) (m : localRPCtrlSrvResp)
| Go (g : goroutine)
| Upgrade (c : Conn)
| Dialed (network host : string)
| RoundTrip (url : string)
| CopyHeaders
| CopyBody (ioc : IOConfig)
| CloseBody.

Inductive outcome :=
| Returned (p : ProxyServer) (tr : list event)
| Panicked (p : ProxyServer) (tr : list event)
| BlockedForever (p : ProxyServer) (tr : list event)
| AwaitSelect (p : ProxyServer) (tr : list event)
    (userConn : option Conn) (cb : chan) (seconds : Z).

Inductive select_case :=
| case_cb (resp : localRPCtrlSrvResp)
| case_timeout.

Inductive loop_outcome :=
| LoopContinue (p : ProxyServer) (tr : list event)
| LoopExit (p : ProxyServer) (tr : list event)
| LoopPanic (p : ProxyServer) (tr : list event)
| LoopBlocked (p : ProxyServer) (tr : list event).

Inductive action := ActDNS | ActLocalRP | ActConnect | ActForward | ActReject.

(** What the environment answers during one call. *)
Record World := {
  hijack : option Conn;
  make_cb : chan;
  now : string;
  ResolveIPAddr : option bytes;
  Dial : option Conn;
  url_Parse : bool;
  RoundTrip_result : string + Z;
  ctrl_write_err : bool;
  make_requests : chan;
  new_DummyConn : DummyConnWrapper
}.

(** The random source of the cipher, as the routing loop uses it. *)
Record Rand := {
  Rand_byte : nat -> Z;
  Rand_Intn : nat -> nat
}.

(** What the dispatcher takes from elsewhere and only passes on: Go's
    net.SplitHostPort (the host part, [None] on error) and
    httputil.DumpRequest, and from other files of package proxy the envelope
    codec, the cipher and the option constants. The constants are bit masks
    of the request's option set; their values are not fixed here. *)
Class Externals := {
  SplitHostPort : string -> option string;
  stripURI : string -> string;
  decryptHost : string -> string * option clientRequest;
  DumpRequest : Request -> bytes;
  XORKeyStream : bytes -> bytes -> bytes;
  dnsRespHeader : string;
  doConnect : Z;
  doForward : Z;
  doWebSocket : Z;
  doMuxWS : Z;
  doDNS : Z;
  doPartial : Z;
  doUDPRelay : Z;
  doLocalRP : Z
}.

(** Modelled from the spec: [Options.IsSet] (declared in another file); the
    options are a bitset (section 3), so a flag is set when the masked value
    is not zero. *)
Definition IsSet (o flag : Z) : bool := negb (Z.land o flag =? 0)%Z.

(** ** The server *)

Section server.
Context `{Externals}.

(** [NewServer], as far as it builds the state used here: the fallback
    handler from [ProxyPassAddr] and an AbuseGuard cache of 128 entries.
    [url_ok] says whether url.Parse accepts the address. *)
Definition NewServer (cfg : ServerConfig) (url_ok : bool) : option ProxyServer :=
  let mk h :=
    Some {| rp := h; blacklist := NewCache 128;
            localRP := {| downstreams := []; downConns := [];
                          requests := None; waiting := None |};
            config := cfg |} in
  if decide (ProxyPassAddr cfg = "") then mk None
  else if String.prefix "http" (ProxyPassAddr cfg) then
    if url_ok then mk (Some (ReverseProxy (ProxyPassAddr cfg))) else None
  else mk (Some (FileServer (ProxyPassAddr cfg))).

Definition auth (p : ProxyServer) (a : string) : bool :=
  match Users (config p) with
  | Some users => bool_decide (is_Some (users !! a))
  | None => false
  end.

Definition getIOConfig (p : ProxyServer) (a : string) : IOConfig :=
  {| Bucket := if (0 <? Throttling (config p))%Z
               then Some (Throttling (config p), ThrottlingMax (config p))
               else None;
     Partial := false;
     WSCtrl := wsNone |}.

Definition set_Partial (b : bool) (ioc : IOConfig) : IOConfig :=
  {| Bucket := Bucket ioc; Partial := b; WSCtrl := WSCtrl ioc |}.

Definition set_WSCtrl (m : wsctrl) (ioc : IOConfig) : IOConfig :=
  {| Bucket := Bucket ioc; Partial := Partial ioc; WSCtrl := m |}.

(** [proxy.Write]: cipher the body, then status and body. *)
Definition proxy_Write (key p : bytes) (code : Z) : list event :=
  [WriteHeader code; WriteBody (XORKeyStream key p)].

Definition websocketGUID : string := "258EAFA5-E914-47DA-95CA-C5AB0DC85B11".

(** The bytes [replyGood] collects in its buffer [p]; [buffer.Writes]
    appends its arguments in order. *)
Definition replyGood_buffer (cr : clientRequest) (r : Request) (w : World) : string :=
  if IsSet (Opt cr) doWebSocket then
    let accept := Header_Get r "Sec-WebSocket-Key" +:+ websocketGUID in
    let ans := sha1.Sum (str_bytes accept) in
    "HTTP/1.1 101 Switching Protocols" +:+ CRLF +:+ "Upgrade: websocket" +:+ CRLF
      +:+ "Connection: upgrade" +:+ CRLF +:+ "Sec-WebSocket-Accept: "
      +:+ base64.EncodeToString ans +:+ CRLF +:+ CRLF
  else
    "HTTP/1.1 200 OK" +:+ CRLF +:+ "Content-Type: application/octet-stream"
      +:+ CRLF +:+ "Date: " +:+ now w +:+ CRLF +:+ CRLF.

(** [replyGood]: the I/O configuration it leaves behind its pointer and the
    write it performs; [None] when the connection is nil (the call panics). *)
Definition replyGood (downstreamConn : option Conn) (cr : clientRequest)
    (ioc : IOConfig) (r : Request) (w : World) : option (IOConfig * list event) :=
  let ioc' := if IsSet (Opt cr) doWebSocket then set_WSCtrl wsServer ioc else ioc in
  match downstreamConn with
  | Some c => Some (ioc', [ConnWrite c (str_bytes (replyGood_buffer cr r w))])
  | None => None
  end.

Definition page404 : string :=
  "<html>" +:+ LF +:+ "<head><title>404 Not Found</title></head>" +:+ LF
    +:+ "<body bgcolor=" +:+ DQUOTE +:+ "white" +:+ DQUOTE +:+ ">" +:+ LF
    +:+ "<center><h1>404 Not Found</h1></center>" +:+ LF
    +:+ "<hr><center>nginx</center>" +:+ LF +:+ "</body>" +:+ LF +:+ "</html>".

Definition replySomething (p : ProxyServer) : list event :=
  match rp p with
  | None => [WriteHeader 404; WriteBody (str_bytes page404)]
  | Some h => [Passthrough h]
  end.

(** Lines 202-207: the scan of the waiting map for an entry of this
    connection. Go visits the keys in an unspecified order; [order] is the
    order of this run. The first entry found is deleted and the scan stops. *)
Fixpoint waiting_scan (order : list string) (userConn : option Conn)
    (wm : gmap string localRPCtrlSrvResp) : gmap string localRPCtrlSrvResp :=
  match order with
  | [] => wm
  | k :: rest =>
      match wm !! k with
      | Some resp =>
          if decide (conn (req resp) = userConn) then delete k wm
          else waiting_scan rest userConn wm
      | None => waiting_scan rest userConn wm
      end
  end.

(** Lines 201-208. Ranging over a nil map visits nothing. *)
Definition cleanup (order : list string) (userConn : option Conn)
    (p : ProxyServer) : ProxyServer :=
  match waiting (localRP p) with
  | Some wm => set_localRP (set_waiting (Some (waiting_scan order userConn wm)) (localRP p)) p
  | None => p
  end.

Definition timeout502 : string :=
  "HTTP/1.1 502 Bad Gateway" +:+ CRLF +:+ CRLF +:+ "Error: localrp timed out".

Definition badRequest400 (e : string) : string :=
  "HTTP/1.1 400 Bad Request" +:+ CRLF +:+ CRLF +:+ "Error: " +:+ e.

(** Lines 189-209: what the decode-failure path does once its select has
    fired with [sel], on the state [p] the server has by then. *)
Definition ServeHTTP_select (p : ProxyServer) (userConn : option Conn)
    (sel : select_case) (order : list string) : outcome :=
  match sel with
  | case_cb resp =>
      match err resp with
      | Some e =>
          match userConn with
          | Some c => Returned p [ConnWrite c (str_bytes (badRequest400 e))]
          | None => Panicked p []
          end
      | None => Returned (cleanup order userConn p) []
      end
  | case_timeout =>
      match userConn with
      | Some c =>
          Returned (cleanup order userConn p) [ConnWrite c (str_bytes timeout502)]
      | None => Panicked p []
      end
  end.

Definition okLine : string := "HTTP/1.1 200 OK" +:+ CRLF +:+ CRLF.

(** [startLocalRPControlServer], up to the goroutines it starts. *)
Definition startLocalRPControlServer (p : ProxyServer) (downstream : option Conn)
    (cr : clientRequest) (ioc : IOConfig) (w : World) : outcome :=
  match downstream with
  | None => Panicked p []
  | Some d =>
      if ctrl_write_err w then
        Returned p [ConnWrite d (str_bytes okLine); ConnClose d]
      else if DisableLRP (config p) then
        Returned p [ConnWrite d (str_bytes okLine); ConnClose d]
      else
        let l := localRP p in
        match requests l, bool_decide (LBindCap (config p) < 0)%Z with
        | None, true => Panicked p [ConnWrite d (str_bytes okLine)]
        | _, _ =>
            let connw := new_DummyConn w in
            let l' :=
              {| downstreams := downstreams l ++ [d];
                 downConns := downConns l ++ [connw];
                 requests := match requests l with
                             | None => Some (make_requests w)
                             | Some q => Some q
                             end;
                 waiting := match waiting l with
                            | None => Some ∅
                            | Some wm => Some wm
                            end |} in
            Returned (set_localRP l' p)
              ([ConnWrite d (str_bytes okLine)]
               ++ match requests l with
                  | None => [MakeChan (make_requests w) (LBindCap (config p))]
                  | Some _ => []
                  end
               ++ (if decide (length (downConns l') = 1) then [Go RoutingLoop] else [])
               ++ [Go (Bridge (NetConn (Some d)) (Dummy connw) (iv cr) ioc);
                   Go (Heartbeat connw d)])
        end
  end.

(** [pickAControlConn]; [None] when the agent list is empty (Intn panics). *)
Definition pickAControlConn (p : ProxyServer) (rnd : Rand) : option DummyConnWrapper :=
  let n := length (downConns (localRP p)) in
  if decide (n = 0) then None
  else downConns (localRP p) !! (Rand_Intn rnd n `mod` n).

(** Lines 479-484: the control message for [rq], token drawn from [rnd]. *)
Definition Rand_Read (rnd : Rand) (n : nat) : bytes :=
  map (fun i => (Rand_byte rnd i mod 256)%Z) (seq 0 n).

Definition control_message (rnd : Rand) (rq : localRPCtrlSrvReq) : bytes :=
  let buf := replicate (16 + 4 + length (rawReq rq)) 0%Z in
  let buf := copy_at 0 (Rand_Read rnd 16) buf in
  let buf := copy_at 16 (PutUint32 (uint32 (Z.of_nat (length (rawReq rq))))) buf in
  copy_at 20 (rawReq rq) buf.

Definition tooLong : localRPCtrlSrvResp :=
  {| err := Some "request too long"; localrpr := ""; req := zeroReq |}.

(** One turn of the routing loop (lines 465-496), having received [rq] from
    the queue the handle names at that moment. *)
Definition routingLoop_iter (p : ProxyServer) (rq : localRPCtrlSrvReq)
    (rnd : Rand) : loop_outcome :=
  match requests (localRP p) with
  | None => LoopBlocked p []
  | Some _ =>
      if end_ rq then LoopExit p []
      else if (65535 <=? Z.of_nat (String.length (dst rq)))%Z then
        match callback rq with
        | Some cb => LoopContinue p [SendResp cb tooLong]
        | None => LoopBlocked p []
        end
      else
        let buf := control_message rnd rq in
        let localrpr := hex (take 16 buf) in
        match waiting (localRP p) with
        | None => LoopPanic p []
        | Some wm =>
            let p' :=
              set_localRP
                (set_waiting
                   (Some (<[localrpr := {| err := None; localrpr := localrpr;
                                           req := rq |}]> wm))
                   (localRP p)) p in
            match pickAControlConn p' rnd with
            | Some connw => LoopContinue p' [Go (ConnwWrite connw buf)]
            | None => LoopPanic p' []
            end
        end
  end.

Fixpoint index_of (connw : DummyConnWrapper) (l : list DummyConnWrapper) : option nat :=
  match l with
  | [] => None
  | d :: r => if decide (d = connw) then Some 0 else S <$> index_of connw r
  end.

Definition poison : localRPCtrlSrvReq :=
  {| dst := ""; end_ := true; conn := None; callback := None; rawReq := [] |}.

(** Lines 518-532: what the heartbeat task of [connw] does after its loop
    has broken. *)
Definition heartbeat_exit (p : ProxyServer) (connw : DummyConnWrapper)
    (downstream : Conn) : outcome :=
  let l := localRP p in
  let removed :=
    match index_of connw (downConns l) with
    | Some i =>
        if decide (i < length (downstreams l)) then
          Some {| downstreams := delete i (downstreams l);
                  downConns := delete i (downConns l);
                  requests := requests l; waiting := waiting l |}
        else None
    | None => Some l
    end in
  match removed with
  | None => Panicked p []
  | Some l1 =>
      if decide (length (downstreams l1) = 0) then
        match requests l1 with
        | Some q =>
            Returned
              (set_localRP {| downstreams := downstreams l1; downConns := downConns l1;
                              requests := None; waiting := None |} p)
              [SendReq q poison; ConnClose downstream]
        | None => BlockedForever (set_localRP l1 p) []
        end
      else Returned (set_localRP l1 p) [ConnClose downstream]
  end.

(** The branches of the dispatch chain (lines 230-353). *)
Definition doDNS_branch (p : ProxyServer) (w : World) : outcome :=
  let ip := match ResolveIPAddr w with
            | Some ip => ip
            | None => [127; 0; 0; 1]%Z
            end in
  Returned p [HeaderAdd dnsRespHeader (base64.EncodeToString ip); WriteHeader 200].

Definition doLocalRP_branch (p : ProxyServer) (r : Request) (w : World)
    (dst : string) (cr : clientRequest) : outcome :=
  let ioc := set_Partial (IsSet (Opt cr) doPartial) (getIOConfig p (Auth cr)) in
  if decide (dst = "localrp") then
    startLocalRPControlServer p (hijack w) cr ioc w
  else
    match waiting (localRP p) with
    | Some wm =>
        match wm !! dst with
        | None => Returned p []
        | Some resp =>
            let downstreamConn := hijack w in
            match replyGood downstreamConn cr ioc r w with
            | None => Panicked p []
            | Some (ioc', tr) =>
                let tr' :=
                  tr ++ [Go (Bridge (NetConn downstreamConn)
                               (NetConn (conn (req resp))) (iv cr) ioc')] in
                match callback (req resp) with
                | Some cb => Returned p (tr' ++ [SendResp cb resp])
                | None => BlockedForever p tr'
                end
            end
        end
    | None => Returned p []
    end.

Definition doConnect_branch (p : ProxyServer) (r : Request) (w : World)
    (dst : string) (cr : clientRequest) : outcome :=
  let host := dst in
  if decide (host = "") then Returned p (replySomething p)
  else
    match hijack w with
    | None => Returned p []
    | Some d =>
        let ioc := set_Partial (IsSet (Opt cr) doPartial) (getIOConfig p (Auth cr)) in
        let udp := IsSet (Opt cr) doUDPRelay in
        if udp && DisableUDP (config p) then Returned p [ConnClose d]
        else
          let dial := Dialed (if udp then "udp" else "tcp") host in
          match Dial w with
          | None => Returned p [dial; ConnClose d]
          | Some targetSiteConn =>
              match replyGood (Some d) cr ioc r w with
              | None => Panicked p [dial]
              | Some (ioc', tr) =>
                  if IsSet (Opt cr) doMuxWS then
                    Returned p ([dial] ++ tr ++ [Upgrade d])
                  else
                    Returned p
                      ([dial] ++ tr
                       ++ [Go (Bridge (NetConn (Some d))
                                 (NetConn (Some targetSiteConn)) (iv cr) ioc')])
              end
          end
    end.

Definition doForward_branch (p : ProxyServer) (w : World)
    (dst : string) (cr : clientRequest) : outcome :=
  if url_Parse w then
    match RoundTrip_result w with
    | inl e => Returned p (RoundTrip dst :: proxy_Write (iv cr) (str_bytes e) 500)
    | inr status =>
        Returned p [RoundTrip dst; CopyHeaders; WriteHeader status;
                    CopyBody (getIOConfig p (Auth cr)); CloseBody]
    end
  else Returned p (replySomething p).

Definition reject_branch (p : ProxyServer) (addr : string) : outcome :=
  Returned (set_blacklist (lru_Add addr (blacklist p)) p) (replySomething p).

Definition dispatch (p : ProxyServer) (r : Request) (w : World)
    (addr dst : string) (cr : clientRequest) : outcome :=
  if IsSet (Opt cr) doDNS then doDNS_branch p w
  else if IsSet (Opt cr) doLocalRP then doLocalRP_branch p r w dst cr
  else if IsSet (Opt cr) doConnect then doConnect_branch p r w dst cr
  else if IsSet (Opt cr) doForward then doForward_branch p w dst cr
  else reject_branch p addr.

(** [ServeHTTP] up to its return or to the select of line 189. The read of
    the hit count at line 224 only feeds a log line. *)
Definition ServeHTTP (p : ProxyServer) (r : Request) (w : World) : outcome :=
  match SplitHostPort (RemoteAddr r) with
  | None => Returned p (replySomething p)
  | Some addr =>
      let rawReq :=
        match waiting (localRP p) with
        | Some _ => DumpRequest r
        | None => []
        end in
      let '(dst, cr) := decryptHost (stripURI (RequestURI r)) in
      match (if decide (dst = "") then None else cr) with
      | None =>
          match waiting (localRP p) with
          | Some _ =>
              let userConn := hijack w in
              let cb := make_cb w in
              match requests (localRP p) with
              | Some q =>
                  AwaitSelect p
                    [MakeChan cb 1;
                     SendReq q {| dst := dst; end_ := false; conn := userConn;
                                  callback := Some cb; rawReq := rawReq |}]
                    userConn cb (LBindTimeout (config p))
              | None => BlockedForever p [MakeChan cb 1]
              end
          | None => reject_branch p addr
          end
      | Some cr =>
          if bool_decide (is_Some (Users (config p))) && negb (auth p (Auth cr))
          then Returned p []
          else dispatch p r w addr dst cr
      end
  end.

(** The precedence of section 4.1, step 7, in the spec's words: the first
    option of the list that is set names the action, none set rejects. *)
Definition spec_precedence : list (Z * action) :=
  [(doDNS, ActDNS); (doLocalRP, ActLocalRP); (doConnect, ActConnect);
   (doForward, ActForward)].

Fixpoint spec_select (o : Z) (order : list (Z * action)) : action :=
  match order with
  | [] => ActReject
  | (flag, a) :: rest => if IsSet o flag then a else spec_select o rest
  end.

Definition run_action (a : action) (p : ProxyServer) (r : Request) (w : World)
    (addr dst : string) (cr : clientRequest) : outcome :=
  match a with
  | ActDNS => doDNS_branch p w
  | ActLocalRP => doLocalRP_branch p r w dst cr
  | ActConnect => doConnect_branch p r w dst cr
  | ActForward => doForward_branch p w dst cr
  | ActReject => reject_branch p addr
  end.

(** The auth gate of lines 217-222. *)
Definition auth_gate (p : ProxyServer) (cr : clientRequest) : bool :=
  negb (bool_decide (is_Some (Users (config p)))) || auth p (Auth cr).

(** Whether the decode at line 174 produced a request (line 176). *)
Definition decoded (r : Request) : option (string * clientRequest) :=
  let '(dst, cr) := decryptHost (stripURI (RequestURI r)) in
  if decide (dst = "") then None else (fun c => (dst, c)) <$> cr.

Definition outcome_state (o : outcome) : ProxyServer :=
  match o with
  | Returned p _ | Panicked p _ | BlockedForever p _ | AwaitSelect p _ _ _ _ => p
  end.


Definition loop_state (o : loop_outcome) : ProxyServer :=
  match o with
  | LoopContinue p _ | LoopExit p _ | LoopPanic p _ | LoopBlocked p _ => p
  end.

(** A session is torn down when no agent is registered and both handles
    are nil. *)
Definition torn_down (p : ProxyServer) : Prop :=
  downConns (localRP p) = [] ∧ downstreams (localRP p) = []
  ∧ requests (localRP p) = None ∧ waiting (localRP p) = None.

(** What registration and heartbeat exit maintain under the mutex: the two
    agent lists run in step, and the queue handle and the waiting map exist
    exactly while an agent is registered. *)
Definition session_inv (p : ProxyServer) : Prop :=
  length (downstreams (localRP p)) = length (downConns (localRP p))
  ∧ (downConns (localRP p) = [] ↔ requests (localRP p) = None)
  ∧ (requests (localRP p) = None ↔ waiting (localRP p) = None).

End server.

(** ** A concrete deployment, for the examples

    A toy codec with four recognised request targets, eight distinct option
    bits, and small server states. *)

Definition ex_cr (a : string) (o : Z) : clientRequest :=
  {| Auth := a; Query := "example.org"; Opt := o; iv := [1; 2; 3]%Z |}.

Definition ex_token : string := "000102030405060708090a0b0c0d0e0f".

Definition ex_decryptHost (uri : string) : string * option clientRequest :=
  if decide (uri = "/plain") then ("example.org:80", Some (ex_cr "alice" 0))
  else if decide (uri = "/stranger") then ("example.org:80", Some (ex_cr "mallory" 0))
  else if decide (uri = "/fulfil") then (ex_token, Some (ex_cr "alice" 128))
  else if decide (uri = "/register") then ("localrp", Some (ex_cr "alice" 128))
  else ("", None).

Definition ex_externals : Externals :=
  {| SplitHostPort := fun s => if decide (s = "") then None else Some s;
     stripURI := fun s => s;
     decryptHost := ex_decryptHost;
     DumpRequest := fun r => str_bytes (RequestURI r);
     XORKeyStream := fun _ p => p;
     dnsRespHeader := "ETag";
     doConnect := 1; doForward := 2; doWebSocket := 4; doMuxWS := 8;
     doDNS := 16; doPartial := 32; doUDPRelay := 64; doLocalRP := 128 |}.

Definition ex_request (uri : string) : Request :=
  {| RemoteAddr := "203.0.113.9"; RequestURI := uri;
     Header := {["Sec-WebSocket-Key" := "dGhlIHNhbXBsZSBub25jZQ=="]} |}.

Definition ex_world : World :=
  {| hijack := Some 8; make_cb := 4; now := "Thu, 01 Jan 1970 00:00:00 UTC";
     ResolveIPAddr := Some [93; 184; 216; 34]%Z; Dial := Some 9;
     url_Parse := true; RoundTrip_result := inr 200%Z; ctrl_write_err := false;
     make_requests := 1; new_DummyConn := 5 |}.

Definition ex_rand : Rand :=
  {| Rand_byte := fun i => Z.of_nat i; Rand_Intn := fun n => 0 |}.

Definition ex_config (users : option (gmap string UserConfig)) (lrp_off : bool)
    : ServerConfig :=
  {| Throttling := 0; ThrottlingMax := 0; LBindTimeout := 30; LBindCap := 16;
     DisableUDP := false; DisableLRP := lrp_off; ProxyPassAddr := "";
     Users := users |}.

Definition ex_users : gmap string UserConfig :=
  {["alice" := {| UserConfig_Auth := "secret"; UserConfig_Throttling := 1;
                  UserConfig_ThrottlingMax := 2 |}]}.

(** No session: the state [NewServer] builds. *)
Definition ex_idle (users : option (gmap string UserConfig)) (lrp_off : bool)
    : ProxyServer :=
  {| rp := None; blacklist := NewCache 128;
     localRP := {| downstreams := []; downConns := [];
                   requests := None; waiting := None |};
     config := ex_config users lrp_off |}.

(** The pending request of the client on connection 7, and its entry. *)
Definition ex_pending : localRPCtrlSrvReq :=
  {| dst := ""; end_ := false; conn := Some 7; callback := Some 3;
     rawReq := str_bytes "GET / HTTP/1.1" |}.

Definition ex_entry : localRPCtrlSrvResp :=
  {| err := None; localrpr := ex_token; req := ex_pending |}.

(** A session with one agent; [wm] is its waiting map. *)
Definition ex_session (wm : gmap string localRPCtrlSrvResp) : ProxyServer :=
  {| rp := None; blacklist := NewCache 128;
     localRP := {| downstreams := [6]; downConns := [5];
                   requests := Some 1; waiting := Some wm |};
     config := ex_config None false |}.

Definition ex_long : string :=
  string_of_list_ascii (replicate (Z.to_nat 65535) "a"%char).

(** ** The heartbeat loop and the listening address *)

(** What the agent's endpoint answers in one round of the heartbeat loop:
    the ping is written and the pong read, or the write fails, or the read. *)
Inductive heartbeat_answer := pong | write_fails | read_fails.

Inductive heartbeat_event :=
| Ping (connw : DummyConnWrapper) (buf : bytes)
| Pong (connw : DummyConnWrapper)
| Sleep.

(** Lines 506-516: the loop over the answers of the rounds. Each round makes
    a fresh buffer of 16 zero bytes, writes it, reads into it and sleeps; the
    first error breaks the loop. The result is the trace and whether the loop
    has broken (with the answers used up it is still running). *)
Fixpoint heartbeat_loop (connw : DummyConnWrapper)
    (answers : list heartbeat_answer) : list heartbeat_event * bool :=
  match answers with
  | [] => ([], false)
  | a :: rest =>
      let buf := replicate 16 0%Z in
      match a with
      | write_fails => ([Ping connw buf], true)
      | read_fails => ([Ping connw buf; Pong connw], true)
      | pong =>
          let '(tr, broken) := heartbeat_loop connw rest in
          (Ping connw buf :: Pong connw :: Sleep :: tr, broken)
      end
  end.

(** Lines 504-533: the heartbeat task; once the loop has broken it runs the
    exit code on the state of that moment. *)
Definition heartbeat (p : ProxyServer) (connw : DummyConnWrapper)
    (downstream : Conn) (answers : list heartbeat_answer)
    : list heartbeat_event * option outcome :=
  let '(tr, broken) := heartbeat_loop connw answers in
  (tr, if broken then Some (heartbeat_exit p connw downstream) else None).

Definition is_ping (e : heartbeat_event) : bool :=
  match e with
  | Ping _ _ => true
  | _ => false
  end.

(** strconv.Atoi on a 64-bit platform: an optional sign, then one or more
    decimal digits, and a value that fits an int64. *)
Definition digit_val (c : ascii) : option Z :=
  let n := Z.of_nat (nat_of_ascii c) in
  if ((48 <=? n) && (n <=? 57))%Z then Some (n - 48)%Z else None.

Fixpoint parse_digits (acc : Z) (s : string) : option Z :=
  match s with
  | EmptyString => Some acc
  | String c r =>
      match digit_val c with
      | Some d => parse_digits (acc * 10 + d)%Z r
      | None => None
      end
  end.

Definition Atoi (s : string) : option Z :=
  let '(neg, body) :=
    match s with
    | String "+"%char r => (false, r)
    | String "-"%char r => (true, r)
    | _ => (false, s)
    end in
  match body with
  | EmptyString => None
  | _ =>
      match parse_digits 0 body with
      | Some n =>
          let v := if neg then (- n)%Z else n in
          if ((- 2 ^ 63 <=? v) && (v <? 2 ^ 63))%Z then Some v else None
      | None => None
      end
  end.

(** strconv.Itoa; 20 rounds cover every int64. *)
Fixpoint digits (fuel : nat) (n : Z) (acc : string) : string :=
  match fuel with
  | O => acc
  | S fuel' =>
      let acc' := String (ascii_of_nat (48 + Z.to_nat (n mod 10))) acc in
      if (n <? 10)%Z then acc' else digits fuel' (n / 10) acc'
  end.

Definition Itoa (n : Z) : string :=
  if (n <? 0)%Z then String "-"%char (digits 20 (- n) EmptyString)
  else digits 20 n EmptyString.

(** Lines 417-421 of [NewServer]: an address that is a number is a port on
    all interfaces (the String() of a TCPAddr with IPv4zero), any other
    address is kept. *)
Definition NewServer_Localaddr (addr : string) : string :=
  match Atoi addr with
  | Some port => "0.0.0.0:" +:+ Itoa port
  | None => addr
  end.

(** Whether a trace writes to or closes a connection. *)
Definition is_ConnWrite (e : event) : bool :=
  match e with
  | ConnWrite _ _ => true
  | _ => false
  end.

Definition is_ConnClose (e : event) : bool :=
  match e with
  | ConnClose _ => true
  | _ => false
  end.

Definition is_Panicked (o : outcome) : bool :=
  match o with
  | Panicked _ _ => true
  | _ => false
  end.

Definition loop_trace (o : loop_outcome) : list event :=
  match o with
  | LoopContinue _ tr | LoopExit _ tr | LoopPanic _ tr | LoopBlocked _ tr => tr
  end.

(** One round of the heartbeat loop that succeeds. *)
Definition heartbeat_round (connw : DummyConnWrapper) : list heartbeat_event :=
  [Ping connw (replicate 16 0%Z); Pong connw; Sleep].

(** Lines 518-532 once more, with the send of line 527 as Go has it. The
    queue is bounded (line 450 makes it with capacity LBindCap), so the send
    of the poison entry goes through when the queue has room or the routing
    loop is at its receive, and waits otherwise; [sent] tells whether it ever
    goes through. The task waits with the mutex held (locked at line 518,
    unlocked at 531), after lines 519-524 have removed its agent and before
    lines 528-529 clear the handles and line 532 closes the socket. With
    [sent = true] this is [heartbeat_exit]. *)
Definition heartbeat_exit_send (p : ProxyServer) (connw : DummyConnWrapper)
    (downstream : Conn) (sent : bool) : outcome :=
  let l := localRP p in
  let removed :=
    match index_of connw (downConns l) with
    | Some i =>
        if decide (i < length (downstreams l)) then
          Some {| downstreams := delete i (downstreams l);
                  downConns := delete i (downConns l);
                  requests := requests l; waiting := waiting l |}
        else None
    | None => Some l
    end in
  match removed with
  | None => Panicked p []
  | Some l1 =>
      if decide (length (downstreams l1) = 0) then
        match requests l1 with
        | Some q =>
            if sent then
              Returned
                (set_localRP {| downstreams := downstreams l1;
                                downConns := downConns l1;
                                requests := None; waiting := None |} p)
                [SendReq q poison; ConnClose downstream]
            else BlockedForever (set_localRP l1 p) []
        | None => BlockedForever (set_localRP l1 p) []
        end
      else Returned (set_localRP l1 p) [ConnClose downstream]
  end.

(** Membership of an effect in a trace given as a list. *)
Ltac in_trace :=
  simpl; rewrite ?elem_of_app, ?elem_of_cons, ?elem_of_nil;
  intuition (try congruence; try discriminate).

(** ** The spec's own formulations, to compare the code with *)

(** Section 6: the handshake accept value is the base64 encoding of the SHA-1
    of the client key followed by the RFC 6455 GUID. *)
Definition spec_accept (key : string) : string :=
  base64.EncodeToString
    (sha1.Sum (str_bytes key ++ str_bytes "258EAFA5-E914-47DA-95CA-C5AB0DC85B11")).

(** ** Basic facts *)

(** The test vectors of FIPS 180-4 and RFC 4648. *)
Example sha1_abc :
  hex (sha1.Sum (str_bytes "abc")) = "a9993e364706816aba3e25717850c26c9cd0d89d".
Proof. by vm_compute. Qed.

Example sha1_two_blocks :
  hex (sha1.Sum
         (str_bytes "abcdbcdecdefdefgefghfghighijhijkijkljklmklmnlmnomnopnopq"))
  = "84983e441c3bd26ebaae4aa1f95129e5e54670f1".
Proof. by vm_compute. Qed.

Example base64_foobar :
  base64.EncodeToString (str_bytes "foobar") = "Zm9vYmFy"
  ∧ base64.EncodeToString (str_bytes "fooba") = "Zm9vYmE="
  ∧ base64.EncodeToString (str_bytes "foob") = "Zm9vYg==".
Proof. by vm_compute. Qed.

Example PutUint32_258 : PutUint32 (uint32 258) = [0; 0; 1; 2]%Z.
Proof. done. Qed.

Lemma str_bytes_app (a b : string) :
  str_bytes (a +:+ b) = str_bytes a ++ str_bytes b.
Proof.
  unfold str_bytes. rewrite <- map_app. f_equal.
  induction a as [|c a IH]; simpl; [done | by rewrite IH].
Qed.

Lemma set_localRP_same (p : ProxyServer) : set_localRP (localRP p) p = p.
Proof. by destruct p. Qed.

Section facts.
Context `{Externals}.

Lemma ServeHTTP_decoded p r w addr dst cr :
  SplitHostPort (RemoteAddr r) = Some addr ->
  decoded r = Some (dst, cr) ->
  ServeHTTP p r w =
    if auth_gate p cr then dispatch p r w addr dst cr else Returned p [].
Proof.
  unfold ServeHTTP, decoded, auth_gate. intros -> Hd.
  destruct (decryptHost (stripURI (RequestURI r))) as [d c].
  destruct (decide (d = "")); [done |].
  destruct c as [c|]; simplify_eq/=.
  destruct (bool_decide (is_Some (Users (config p)))), (auth p (Auth cr)); done.
Qed.

Lemma ServeHTTP_undecoded p r w addr :
  SplitHostPort (RemoteAddr r) = Some addr ->
  decoded r = None ->
  ServeHTTP p r w =
    match waiting (localRP p), requests (localRP p) with
    | Some _, Some q =>
        AwaitSelect p
          [MakeChan (make_cb w) 1;
           SendReq q {| dst := (decryptHost (stripURI (RequestURI r))).1;
                        end_ := false; conn := hijack w;
                        callback := Some (make_cb w);
                        rawReq := DumpRequest r |}]
          (hijack w) (make_cb w) (LBindTimeout (config p))
    | Some _, None => BlockedForever p [MakeChan (make_cb w) 1]
    | None, _ => reject_branch p addr
    end.
Proof.
  unfold ServeHTTP, decoded. intros -> Hd.
  destruct (decryptHost (stripURI (RequestURI r))) as [d c]. simpl.
  destruct (decide (d = "")) as [->|].
  - destruct (waiting (localRP p)), (requests (localRP p)); done.
  - destruct c; simplify_eq/=.
    destruct (waiting (localRP p)), (requests (localRP p)); done.
Qed.
End facts.

(** ** The success framing and the auth check *)

Section framing_and_auth.
Context `{Externals}.

(** C8. With the WebSocket option set, [replyGood] writes a 101 Switching
    Protocols response whose Sec-WebSocket-Accept value is the base64
    encoding of the SHA-1 of the client's Sec-WebSocket-Key followed by the
    GUID 258EAFA5-E914-47DA-95CA-C5AB0DC85B11 (and marks the I/O
    configuration as a WebSocket server); for the key
    dGhlIHNhbXBsZSBub25jZQ== that value is s3pPLMBiTxaQ9kYGzzhZRbK+xOo=. *)
Theorem replyGood_websocket_accept cr r w c ioc :
  IsSet (Opt cr) doWebSocket = true ->
  replyGood (Some c) cr ioc r w =
    Some (set_WSCtrl wsServer ioc,
          [ConnWrite c
             (str_bytes
                ("HTTP/1.1 101 Switching Protocols" +:+ CRLF
                 +:+ "Upgrade: websocket" +:+ CRLF
                 +:+ "Connection: upgrade" +:+ CRLF
                 +:+ "Sec-WebSocket-Accept: "
                 +:+ spec_accept (Header_Get r "Sec-WebSocket-Key")
                 +:+ CRLF +:+ CRLF))])
  ∧ spec_accept "dGhlIHNhbXBsZSBub25jZQ==" = "s3pPLMBiTxaQ9kYGzzhZRbK+xOo=".
Proof.
  intros Hws. split; [| by vm_compute].
  unfold replyGood, replyGood_buffer, spec_accept, websocketGUID.
  rewrite Hws. by rewrite (str_bytes_app (Header_Get r _)).
Qed.

Lemma auth_dom p users a :
  Users (config p) = Some users -> auth p a = true <-> a ∈ dom users.
Proof.
  unfold auth. intros ->. rewrite bool_decide_eq_true. by rewrite elem_of_dom.
Qed.

(** C9. With a Users map configured, [auth] accepts a token exactly when it
    is a key of the map. Nothing else of the map is read: two servers whose
    maps have the same keys accept the same tokens whatever the per-user
    records hold, the I/O configuration does not depend on the token, and the
    dispatcher lets a decoded request through to the dispatch chain exactly
    when its token is a key (otherwise it returns having done nothing). *)
Theorem auth_accepts_exactly_the_keys p users a :
  Users (config p) = Some users ->
  (auth p a = true <-> a ∈ dom users)
  ∧ (forall p' users',
       Users (config p') = Some users' -> dom users' = dom users ->
       auth p' a = auth p a)
  ∧ getIOConfig p a = getIOConfig p ""
  ∧ (forall r w addr dst cr,
       SplitHostPort (RemoteAddr r) = Some addr ->
       decoded r = Some (dst, cr) -> Auth cr = a ->
       ServeHTTP p r w =
         if bool_decide (a ∈ dom users) then dispatch p r w addr dst cr
         else Returned p []).
Proof.
  intros Hu. split_and!.
  - by apply auth_dom.
  - intros p' users' Hu' Hdom. unfold auth. rewrite Hu, Hu'.
    apply bool_decide_ext. by rewrite <- !elem_of_dom, Hdom.
  - done.
  - intros r w addr dst cr Hs Hd <-.
    rewrite (ServeHTTP_decoded _ _ _ _ _ _ Hs Hd). unfold auth_gate.
    rewrite Hu. rewrite bool_decide_true by eauto. simpl.
    destruct (auth p (Auth cr)) eqn:Ha.
    + rewrite bool_decide_true; [done | by apply (auth_dom p users)].
    + rewrite bool_decide_false; [done |].
      intros Hin. apply (auth_dom p users) in Hin; congruence.
Qed.

(** C10. A control registration arriving while LocalRP is disabled: the
    handler writes the line HTTP/1.1 200 OK to the socket, then closes it,
    and leaves the server state as it was; it appends no agent, creates no
    queue and no waiting map, and starts neither the routing loop nor a
    heartbeat. The same holds when reached through the dispatcher. *)
Theorem registration_refused_when_disabled p d cr ioc w :
  DisableLRP (config p) = true ->
  startLocalRPControlServer p (Some d) cr ioc w =
    Returned p [ConnWrite d (str_bytes ("HTTP/1.1 200 OK" +:+ CRLF +:+ CRLF));
                ConnClose d]
  ∧ (forall r addr,
       SplitHostPort (RemoteAddr r) = Some addr ->
       decoded r = Some ("localrp", cr) -> auth_gate p cr = true ->
       IsSet (Opt cr) doDNS = false -> IsSet (Opt cr) doLocalRP = true ->
       hijack w = Some d ->
       ServeHTTP p r w =
         Returned p [ConnWrite d (str_bytes ("HTTP/1.1 200 OK" +:+ CRLF +:+ CRLF));
                     ConnClose d]).
Proof.
  intros Hoff.
  assert (forall ioc', startLocalRPControlServer p (Some d) cr ioc' w =
    Returned p [ConnWrite d (str_bytes ("HTTP/1.1 200 OK" +:+ CRLF +:+ CRLF));
                ConnClose d]) as Hstart.
  { intros ioc'. unfold startLocalRPControlServer. rewrite Hoff.
    by destruct (ctrl_write_err w). }
  split; [apply Hstart |].
  intros r addr Hs Hd Hg Hdns Hlrp Hhij.
  rewrite (ServeHTTP_decoded _ _ _ _ _ _ Hs Hd), Hg.
  unfold dispatch, doLocalRP_branch. rewrite Hdns, Hlrp, Hhij.
  rewrite decide_True by done. apply Hstart.
Qed.
End framing_and_auth.

(** ** The routing loop *)

Lemma copy_at_app (pre old post src : bytes) :
  length old = length src ->
  copy_at (length pre) src (pre ++ old ++ post) = pre ++ src ++ post.
Proof.
  intros Hlen. unfold copy_at.
  rewrite take_app_length. f_equal.
  rewrite !length_app, (take_ge src) by lia. f_equal.
  rewrite drop_app_add, <- Hlen. apply drop_app_length.
Qed.

Lemma length_PutUint32 v : length (PutUint32 v) = 4.
Proof. done. Qed.

Lemma Uint32_PutUint32 v : (0 <= v < 2^32)%Z -> Uint32 (PutUint32 v) = v.
Proof.
  intros Hv. unfold Uint32, PutUint32.
  rewrite !Z.shiftr_div_pow2 by lia.
  change (2 ^ 24)%Z with (256 * 256 * 256)%Z.
  change (2 ^ 16)%Z with (256 * 256)%Z.
  change (2 ^ 8)%Z with 256%Z. change (2 ^ 32)%Z with 4294967296%Z in Hv.
  rewrite <- !Z.div_div by lia.
  pose proof (Z.div_mod v 256 ltac:(lia)).
  pose proof (Z.div_mod (v / 256) 256 ltac:(lia)).
  pose proof (Z.div_mod (v / 256 / 256) 256 ltac:(lia)).
  assert (v / 256 / 256 / 256 mod 256 = v / 256 / 256 / 256)%Z.
  { apply Z.mod_small. split.
    - repeat apply Z.div_pos; lia.
    - rewrite !Z.div_div by lia. apply Z.div_lt_upper_bound; lia. }
  lia.
Qed.

Lemma length_Rand_Read rnd n : length (Rand_Read rnd n) = n.
Proof. unfold Rand_Read. by rewrite length_map, length_seq. Qed.

Lemma control_message_layout rnd rq :
  control_message rnd rq =
    Rand_Read rnd 16
    ++ PutUint32 (uint32 (Z.of_nat (length (rawReq rq)))) ++ rawReq rq.
Proof.
  unfold control_message.
  set (tok := Rand_Read rnd 16). set (len := PutUint32 _). set (raw := rawReq rq).
  set (zeros := replicate (length raw) 0%Z).
  assert (length tok = 16) as Htok by apply length_Rand_Read.
  assert (length zeros = length raw) as Hz by apply length_replicate.
  rewrite !replicate_add, <- app_assoc. fold zeros.
  assert (copy_at 0 tok (replicate 16 0%Z ++ replicate 4 0%Z ++ zeros)
          = tok ++ replicate 4 0%Z ++ zeros) as ->.
  { apply (copy_at_app [] (replicate 16 0%Z) _ tok). by rewrite length_replicate. }
  assert (copy_at 16 len (tok ++ replicate 4 0%Z ++ zeros) = tok ++ len ++ zeros)
    as ->.
  { rewrite <- Htok. by apply copy_at_app. }
  assert (copy_at 20 raw ((tok ++ len) ++ zeros ++ []) = (tok ++ len) ++ raw ++ [])
    as Hraw.
  { replace 20 with (length (tok ++ len)) by (by rewrite length_app, Htok).
    by apply copy_at_app. }
  by rewrite !app_nil_r, <- !app_assoc in Hraw.
Qed.

Lemma control_message_token rnd rq :
  take 16 (control_message rnd rq) = Rand_Read rnd 16.
Proof.
  rewrite control_message_layout.
  apply take_app_length'. by rewrite length_Rand_Read.
Qed.

Lemma pickAControlConn_elem p rnd :
  downConns (localRP p) ≠ [] ->
  ∃ connw, pickAControlConn p rnd = Some connw ∧ connw ∈ downConns (localRP p).
Proof.
  intros Hne. unfold pickAControlConn.
  destruct (downConns (localRP p)) as [|d l] eqn:Hl; [done |].
  rewrite decide_False by done.
  destruct (lookup_lt_is_Some_2 (d :: l)
              (Rand_Intn rnd (length (d :: l)) `mod` length (d :: l)))
    as [connw Hc].
  { apply Nat.mod_upper_bound. done. }
  exists connw. split; [done |]. by eapply list_elem_of_lookup_2.
Qed.

(** C5. A pending request whose destination is 65535 bytes or longer: the
    routing loop sends the error "request too long" on the request's completion
    channel and goes on to the next queue entry. The server state is left as it
    was (no waiting-map entry), nothing is written to an agent, and the random
    source plays no part (no token is drawn). *)
Theorem routingLoop_oversized_destination p rq rnd q cb :
  requests (localRP p) = Some q ->
  end_ rq = false ->
  callback rq = Some cb ->
  (65535 <= Z.of_nat (String.length (dst rq)))%Z ->
  routingLoop_iter p rq rnd =
    LoopContinue p
      [SendResp cb {| err := Some "request too long"; localrpr := "";
                      req := zeroReq |}]
  ∧ (forall rnd', routingLoop_iter p rq rnd' = routingLoop_iter p rq rnd).
Proof.
  intros Hq Hend Hcb Hlen.
  assert (forall r, routingLoop_iter p rq r = LoopContinue p [SendResp cb tooLong]) as Hit.
  { intros r. unfold routingLoop_iter. rewrite Hq, Hend, Hcb.
    by destruct (Z.leb_spec 65535 (Z.of_nat (String.length (dst rq)))); [| lia]. }
  split; [apply Hit |]. intros rnd'. by rewrite !Hit.
Qed.

(** C6. For a pending request the routing loop dispatches (destination
    shorter than 65535 bytes, raw request shorter than 2^32 bytes so that its
    length fits the field), the message handed to the chosen agent's endpoint
    is the 16 random bytes of the token, then the length of the raw request as
    4 big-endian bytes, then the raw request: 20 bytes plus the raw request in
    all. The waiting map gets the request under the hex encoding of the token,
    and the agent is one of the registered ones. *)
Theorem routingLoop_control_message p rq rnd q wm :
  requests (localRP p) = Some q ->
  waiting (localRP p) = Some wm ->
  downConns (localRP p) ≠ [] ->
  end_ rq = false ->
  (Z.of_nat (String.length (dst rq)) < 65535)%Z ->
  (Z.of_nat (length (rawReq rq)) < 2^32)%Z ->
  ∃ token connw,
    let n := length (rawReq rq) in
    let msg := token ++ PutUint32 (Z.of_nat n) ++ rawReq rq in
    token = Rand_Read rnd 16 ∧ length token = 16
    ∧ connw ∈ downConns (localRP p)
    ∧ routingLoop_iter p rq rnd =
        LoopContinue
          (set_localRP
             (set_waiting
                (Some (<[hex token := {| err := None; localrpr := hex token;
                                         req := rq |}]> wm))
                (localRP p)) p)
          [Go (ConnwWrite connw msg)]
    ∧ length msg = 20 + n
    ∧ Uint32 (PutUint32 (Z.of_nat n)) = Z.of_nat n.
Proof.
  intros Hq Hwm Hne Hend Hdst Hraw.
  set (p' := set_localRP (set_waiting (Some (<[hex (Rand_Read rnd 16) :=
    {| err := None; localrpr := hex (Rand_Read rnd 16); req := rq |}]> wm))
    (localRP p)) p).
  destruct (pickAControlConn_elem p' rnd) as (connw & Hpick & Hin); [done |].
  exists (Rand_Read rnd 16), connw. cbv zeta.
  assert (uint32 (Z.of_nat (length (rawReq rq))) = Z.of_nat (length (rawReq rq)))
    as Hu by (unfold uint32; apply Z.mod_small; lia).
  split_and!; [done | apply length_Rand_Read | done | | |].
  - unfold routingLoop_iter. rewrite Hq, Hend, Hwm.
    destruct (Z.leb_spec 65535 (Z.of_nat (String.length (dst rq)))); [lia |].
    rewrite control_message_layout, Hu.
    rewrite take_app_length' by (by rewrite length_Rand_Read).
    fold p'. by rewrite Hpick.
  - rewrite !length_app, length_Rand_Read, length_PutUint32. lia.
  - apply Uint32_PutUint32. lia.
Qed.

(** ** The decode-failure path without a session *)

Lemma lru_hits_Add c k :
  0 < maxEntries c -> lru_hits (lru_Add k c) k = (lru_hits c k + 1)%Z.
Proof.
  intros Hcap. unfold lru_Add. destruct (maxEntries c) as [|n]; [lia |].
  unfold lru_hits at 1. simpl. by rewrite decide_True.
Qed.

Section no_session.
Context `{Externals}.

(** C7. A request whose envelope fails to decode while no LocalRP session is
    active: the dispatcher records the remote address in AbuseGuard, whose
    hit count for that address goes up by exactly 1, and answers with the
    default page (the 404 page, or the configured passthrough handler) and
    with nothing else; the session state is not touched. *)
Theorem undecodable_without_session p r w addr :
  SplitHostPort (RemoteAddr r) = Some addr ->
  decoded r = None ->
  waiting (localRP p) = None ->
  0 < maxEntries (blacklist p) ->
  ∃ p',
    ServeHTTP p r w = Returned p' (replySomething p)
    ∧ p' = set_blacklist (lru_Add addr (blacklist p)) p
    ∧ lru_hits (blacklist p') addr = (lru_hits (blacklist p) addr + 1)%Z
    ∧ localRP p' = localRP p
    ∧ replySomething p =
        match rp p with
        | None => [WriteHeader 404; WriteBody (str_bytes page404)]
        | Some h => [Passthrough h]
        end.
Proof.
  intros Hs Hd Hw Hcap. eexists. split_and!; [| done | | done | done].
  - rewrite (ServeHTTP_undecoded _ _ _ _ Hs Hd), Hw. done.
  - simpl. by apply lru_hits_Add.
Qed.
End no_session.

(** ** The session invariant *)

Lemma index_of_lookup connw l i :
  index_of connw l = Some i -> l !! i = Some connw.
Proof.
  revert i. induction l as [|d l IH]; intros i; simpl; [done |].
  destruct (decide (d = connw)) as [->|]; [by intros [= <-] |].
  destruct (index_of connw l) as [j|]; [| done].
  intros [= <-]. by apply IH.
Qed.

Lemma index_of_elem connw l :
  connw ∈ l -> is_Some (index_of connw l).
Proof.
  induction l as [|d l IH]; [by intros ?%elem_of_nil |].
  intros Hin. simpl. destruct (decide (d = connw)); [by eauto |].
  apply elem_of_cons in Hin as [->|Hin]; [done |].
  destruct (IH Hin) as [j ->]. by eauto.
Qed.

Lemma session_inv_localRP p p' :
  localRP p' = localRP p -> session_inv p -> session_inv p'.
Proof. unfold session_inv. by intros ->. Qed.

Lemma session_inv_set_waiting p wm wm' :
  waiting (localRP p) = Some wm -> session_inv p ->
  session_inv (set_localRP (set_waiting (Some wm') (localRP p)) p).
Proof.
  unfold session_inv. simpl. intros Hw (Hlen & Hq & Hwq).
  split_and!; [done.. |]. rewrite Hwq, Hw. by split.
Qed.

Lemma session_inv_torn_down p : torn_down p -> session_inv p.
Proof.
  intros (Hc & Hd & Hq & Hw). unfold session_inv. by rewrite Hc, Hd, Hq, Hw.
Qed.

Lemma session_inv_heartbeat_exit p connw d :
  session_inv p -> connw ∈ downConns (localRP p) ->
  ∃ p' tr, heartbeat_exit p connw d = Returned p' tr ∧ session_inv p'.
Proof.
  intros (Hlen & Hq & Hw) Hin.
  destruct (index_of_elem _ _ Hin) as [i Hi].
  pose proof (index_of_lookup _ _ _ Hi) as Hli.
  assert (i < length (downConns (localRP p))) as Hlt
    by (apply lookup_lt_is_Some; eauto).
  unfold heartbeat_exit. rewrite Hi. rewrite decide_True by lia.
  destruct (requests (localRP p)) as [q|] eqn:Hreq.
  2:{ assert (downConns (localRP p) = []) as Hnil by (by apply Hq).
      rewrite Hnil in Hin. by apply elem_of_nil in Hin. }
  assert (length (delete i (downstreams (localRP p)))
          = length (delete i (downConns (localRP p)))) as Hlen'.
  { rewrite !length_delete; [lia | eauto |]. apply lookup_lt_is_Some. lia. }
  simpl. destruct (decide (length (delete i (downstreams (localRP p))) = 0))
    as [Hz|Hnz]; simpl.
  - do 2 eexists. split; [done |]. unfold session_inv. simpl.
    split_and!; [done | | done].
    split; [done |]. intros _. apply nil_length_inv. lia.
  - do 2 eexists. split; [done |]. unfold session_inv. simpl.
    split_and!; [done | | done].
    split; [| done]. intros Hnil. rewrite Hnil in Hlen'.
    simpl in Hlen'. lia.
Qed.

Lemma session_inv_start p downstream cr ioc w :
  session_inv p ->
  session_inv (outcome_state (startLocalRPControlServer p downstream cr ioc w)).
Proof.
  intros Hinv. pose proof Hinv as (Hlen & Hq & Hw).
  unfold startLocalRPControlServer.
  destruct downstream as [d|]; [| done].
  destruct (ctrl_write_err w); [done |].
  destruct (DisableLRP (config p)); [done |].
  assert (∀ tr, session_inv (outcome_state (Returned (set_localRP
    {| downstreams := downstreams (localRP p) ++ [d];
       downConns := downConns (localRP p) ++ [new_DummyConn w];
       requests := match requests (localRP p) with
                   | None => Some (make_requests w)
                   | Some q => Some q
                   end;
       waiting := match waiting (localRP p) with
                  | None => Some ∅
                  | Some wm => Some wm
                  end |} p) tr))) as Hreg.
  { intros tr. unfold session_inv. simpl. rewrite !length_app, Hlen.
    split_and!; [done | |].
    - split; [| by destruct (requests (localRP p))].
      intros Hnil. apply (f_equal length) in Hnil.
      rewrite length_app in Hnil. simpl in Hnil. lia.
    - by destruct (requests (localRP p)), (waiting (localRP p)). }
  destruct (requests (localRP p)) eqn:Hreq; [apply Hreg |].
  destruct (bool_decide (LBindCap (config p) < 0)%Z); [done | apply Hreg].
Qed.

Lemma session_inv_select p uc sel order :
  session_inv p -> session_inv (outcome_state (ServeHTTP_select p uc sel order)).
Proof.
  intros Hinv.
  assert (session_inv (cleanup order uc p)) as Hcl.
  { unfold cleanup. destruct (waiting (localRP p)) eqn:Hw; [| done].
    by eapply session_inv_set_waiting. }
  unfold ServeHTTP_select. by repeat case_match.
Qed.

Lemma session_inv_routingLoop p rq rnd :
  session_inv p -> session_inv (loop_state (routingLoop_iter p rq rnd)).
Proof.
  intros Hinv. unfold routingLoop_iter.
  repeat case_match; simpl; try done; by eapply session_inv_set_waiting.
Qed.

(** ** The waiting map: who removes an entry *)

Lemma waiting_scan_cases order uc (wm : gmap string localRPCtrlSrvResp) :
  (waiting_scan order uc wm = wm
   ∧ ∀ k resp, k ∈ order -> wm !! k = Some resp -> conn (req resp) ≠ uc)
  ∨ (∃ k resp, k ∈ order ∧ wm !! k = Some resp ∧ conn (req resp) = uc
       ∧ waiting_scan order uc wm = delete k wm).
Proof.
  induction order as [|k order IH]; simpl.
  - left. split; [done |]. intros k resp Hk. by apply elem_of_nil in Hk.
  - destruct (wm !! k) as [resp|] eqn:Hk.
    + destruct (decide (conn (req resp) = uc)) as [Hc|Hc].
      * right. exists k, resp. split_and!; [left | done..].
      * destruct IH as [[-> IH]|(k' & resp' & Hin & Hk' & Hc' & ->)].
        -- left. split; [done |]. intros k' resp' Hin Hk'.
           apply elem_of_cons in Hin as [->|Hin]; [congruence | by eapply IH].
        -- right. exists k', resp'. split_and!; [by right | done..].
    + destruct IH as [[-> IH]|(k' & resp' & Hin & Hk' & Hc' & ->)].
      * left. split; [done |]. intros k' resp' Hin Hk'.
        apply elem_of_cons in Hin as [->|Hin]; [congruence | by eapply IH].
      * right. exists k', resp'. split_and!; [by right | done..].
Qed.

(** The scan of the owner: when the connection has one entry and the scan
    visits its key, that entry goes; a second scan finds nothing to remove. *)
Lemma waiting_scan_owner order uc (wm : gmap string localRPCtrlSrvResp) k resp :
  wm !! k = Some resp -> conn (req resp) = uc -> k ∈ order ->
  (∀ k' resp', wm !! k' = Some resp' -> conn (req resp') = uc -> k' = k) ->
  waiting_scan order uc wm = delete k wm
  ∧ waiting_scan order uc (delete k wm) = delete k wm.
Proof.
  intros Hk Hc Hin Huniq. split.
  - destruct (waiting_scan_cases order uc wm)
      as [[_ Hno]|(k' & resp' & _ & Hk' & Hc' & ->)].
    + by destruct (Hno k resp).
    + by rewrite (Huniq k' resp').
  - destruct (waiting_scan_cases order uc (delete k wm))
      as [[-> _]|(k' & resp' & _ & Hk' & Hc' & _)]; [done |].
    apply lookup_delete_Some in Hk' as [Hne Hk'].
    by destruct Hne; symmetry; apply (Huniq k' resp').
Qed.

Lemma heartbeat_exit_last p connw down d q :
  downConns (localRP p) = [connw] ->
  downstreams (localRP p) = [down] ->
  requests (localRP p) = Some q ->
  heartbeat_exit p connw d =
    Returned
      (set_localRP {| downstreams := []; downConns := [];
                      requests := None; waiting := None |} p)
      [SendReq q poison; ConnClose d].
Proof.
  intros Hc Hd Hq. unfold heartbeat_exit. rewrite Hc, Hd. simpl.
  rewrite decide_True by done. simpl. by rewrite Hq.
Qed.

Lemma heartbeat_exit_last_agent p connw d :
  session_inv p ->
  downConns (localRP p) = [connw] ->
  ∃ q, requests (localRP p) = Some q
       ∧ heartbeat_exit p connw d =
           Returned
             (set_localRP {| downstreams := []; downConns := [];
                             requests := None; waiting := None |} p)
             [SendReq q poison; ConnClose d].
Proof.
  intros (Hlen & Hq & _) Hc. rewrite Hc in Hlen, Hq.
  destruct (downstreams (localRP p)) as [|down [|??]] eqn:Hd; try done.
  destruct (requests (localRP p)) as [q|] eqn:Hreq.
  - exists q. split; [done |]. by apply (heartbeat_exit_last _ _ down).
  - by destruct Hq as [_ ?%symmetry].
Qed.

Lemma NewServer_torn_down cfg url_ok p :
  NewServer cfg url_ok = Some p -> torn_down p.
Proof. unfold NewServer. repeat case_match; by intros [= <-]. Qed.

Section session.
Context `{Externals}.

(** The dispatcher leaves the session state alone, except for a control
    registration: a request that decodes with the reserved destination,
    passes the auth gate and reaches the LocalRP branch. *)
Lemma ServeHTTP_keeps_session p r w :
  localRP (outcome_state (ServeHTTP p r w)) = localRP p
  ∨ ∃ addr cr,
      SplitHostPort (RemoteAddr r) = Some addr
      ∧ decoded r = Some ("localrp", cr) ∧ auth_gate p cr = true
      ∧ IsSet (Opt cr) doDNS = false ∧ IsSet (Opt cr) doLocalRP = true.
Proof.
  destruct (SplitHostPort (RemoteAddr r)) as [addr|] eqn:Hs;
    [| left; unfold ServeHTTP; by rewrite Hs].
  destruct (decoded r) as [[dst cr]|] eqn:Hd.
  - rewrite (ServeHTTP_decoded _ _ _ _ _ _ Hs Hd).
    destruct (auth_gate p cr) eqn:Hg; [| by left].
    unfold dispatch.
    destruct (IsSet (Opt cr) doDNS) eqn:Hdns; [by left |].
    destruct (IsSet (Opt cr) doLocalRP) eqn:Hlrp.
    { unfold doLocalRP_branch.
      destruct (decide (dst = "localrp")) as [->|]; [right; by eauto 10 |].
      left. by repeat case_match. }
    destruct (IsSet (Opt cr) doConnect).
    { left. unfold doConnect_branch. by repeat case_match. }
    destruct (IsSet (Opt cr) doForward); left; [| done].
    unfold doForward_branch. by repeat case_match.
  - left. rewrite (ServeHTTP_undecoded _ _ _ _ Hs Hd). by repeat case_match.
Qed.

Lemma session_inv_ServeHTTP p r w :
  session_inv p -> session_inv (outcome_state (ServeHTTP p r w)).
Proof.
  intros Hinv.
  destruct (ServeHTTP_keeps_session p r w)
    as [Heq|(addr & cr & Hs & Hd & Hg & Hdns & Hlrp)].
  - by eapply session_inv_localRP.
  - rewrite (ServeHTTP_decoded _ _ _ _ _ _ Hs Hd), Hg.
    unfold dispatch, doLocalRP_branch. rewrite Hdns, Hlrp.
    rewrite decide_True by done. by apply session_inv_start.
Qed.

Lemma fulfilment_keeps_state p r w dst cr :
  dst ≠ "localrp" -> outcome_state (doLocalRP_branch p r w dst cr) = p.
Proof.
  intros Hne. unfold doLocalRP_branch. rewrite decide_False by done.
  by repeat case_match.
Qed.

(** C1, as the code has it. A request that fails envelope decode while a
    LocalRP session is active: the dispatcher enqueues a pending request
    (destination, hijacked connection, fresh completion channel, captured raw
    request) and parks in the select on that channel and the timer. When the
    timer fires first on a hijacked connection, it writes the 502 response,
    runs the waiting-map cleanup on the state of that moment and returns; it
    does not receive from the completion channel again. When the channel
    fires first, an error is answered with a 400 response and a return, a
    success with the cleanup and a return. *)
Theorem decode_failure_with_session p r w addr q wm :
  SplitHostPort (RemoteAddr r) = Some addr ->
  decoded r = None ->
  waiting (localRP p) = Some wm ->
  requests (localRP p) = Some q ->
  ServeHTTP p r w =
    AwaitSelect p
      [MakeChan (make_cb w) 1;
       SendReq q {| dst := (decryptHost (stripURI (RequestURI r))).1;
                    end_ := false; conn := hijack w;
                    callback := Some (make_cb w); rawReq := DumpRequest r |}]
      (hijack w) (make_cb w) (LBindTimeout (config p))
  ∧ ∀ p' c order,
      hijack w = Some c ->
      ServeHTTP_select p' (hijack w) case_timeout order =
        Returned (cleanup order (Some c) p')
          [ConnWrite c
             (str_bytes ("HTTP/1.1 502 Bad Gateway" +:+ CRLF +:+ CRLF
                         +:+ "Error: localrp timed out"))]
      ∧ (∀ resp, err resp = None ->
           ServeHTTP_select p' (hijack w) (case_cb resp) order =
             Returned (cleanup order (Some c) p') [])
      ∧ (∀ resp e, err resp = Some e ->
           ServeHTTP_select p' (hijack w) (case_cb resp) order =
             Returned p'
               [ConnWrite c
                  (str_bytes ("HTTP/1.1 400 Bad Request" +:+ CRLF +:+ CRLF
                              +:+ "Error: " +:+ e))]).
Proof.
  intros Hs Hd Hw Hq. split.
  - by rewrite (ServeHTTP_undecoded _ _ _ _ Hs Hd), Hw, Hq.
  - intros p' c order ->. split_and!; [done | |].
    + intros resp He. unfold ServeHTTP_select. by rewrite He.
    + intros resp e He. unfold ServeHTTP_select. by rewrite He.
Qed.

(** C2, as the code has it. The waiting map binds a token to one pending
    request: the routing loop's insertion under a token replaces whatever
    was bound to it and leaves the other tokens alone. The fulfilling
    follow-up connection only looks the entry up; it leaves the server state,
    the entry included, as it was. An entry is removed by the cleanup scan
    of the dispatcher that owns the pending connection, which deletes at
    most one entry, one of that connection (the entry of the connection when
    it has one and the scan visits its key, and then nothing on a second
    scan), or is dropped with the whole map when the last agent's heartbeat
    exit clears it. *)
Theorem waiting_entry_lifecycle :
  (∀ p rq rnd q (wm : gmap string localRPCtrlSrvResp),
     requests (localRP p) = Some q -> waiting (localRP p) = Some wm ->
     downConns (localRP p) ≠ [] -> end_ rq = false ->
     (Z.of_nat (String.length (dst rq)) < 65535)%Z ->
     ∃ p' tr wm',
       let token := hex (Rand_Read rnd 16) in
       routingLoop_iter p rq rnd = LoopContinue p' tr
       ∧ waiting (localRP p') = Some wm'
       ∧ wm' !! token = Some {| err := None; localrpr := token; req := rq |}
       ∧ ∀ k, k ≠ token -> wm' !! k = wm !! k)
  ∧ (∀ p r w dst cr,
       dst ≠ "localrp" -> outcome_state (doLocalRP_branch p r w dst cr) = p)
  ∧ (∀ order uc (wm : gmap string localRPCtrlSrvResp),
       (waiting_scan order uc wm = wm
        ∧ ∀ k resp, k ∈ order -> wm !! k = Some resp -> conn (req resp) ≠ uc)
       ∨ (∃ k resp, k ∈ order ∧ wm !! k = Some resp ∧ conn (req resp) = uc
            ∧ waiting_scan order uc wm = delete k wm))
  ∧ (∀ order uc (wm : gmap string localRPCtrlSrvResp) k resp,
       wm !! k = Some resp -> conn (req resp) = uc -> k ∈ order ->
       (∀ k' resp', wm !! k' = Some resp' -> conn (req resp') = uc -> k' = k) ->
       waiting_scan order uc wm = delete k wm
       ∧ waiting_scan order uc (delete k wm) = delete k wm)
  ∧ (∀ p connw d,
       session_inv p -> downConns (localRP p) = [connw] ->
       waiting (localRP (outcome_state (heartbeat_exit p connw d))) = None).
Proof.
  split_and!.
  - intros p rq rnd q wm Hq Hwm Hne Hend Hdst.
    set (token := hex (Rand_Read rnd 16)).
    set (wm' := <[token := {| err := None; localrpr := token; req := rq |}]> wm).
    set (p' := set_localRP (set_waiting (Some wm') (localRP p)) p).
    destruct (pickAControlConn_elem p' rnd) as (connw & Hpick & _); [done |].
    exists p', [Go (ConnwWrite connw (control_message rnd rq))], wm'.
    split_and!; [| done | apply lookup_insert_eq |].
    + unfold routingLoop_iter. rewrite Hq, Hend, Hwm.
      destruct (Z.leb_spec 65535 (Z.of_nat (String.length (dst rq)))); [lia |].
      rewrite control_message_token. fold token wm' p'. by rewrite Hpick.
    + intros k Hk. by apply lookup_insert_ne.
  - apply fulfilment_keeps_state.
  - apply waiting_scan_cases.
  - apply waiting_scan_owner.
  - intros p connw d Hinv Hc.
    by destruct (heartbeat_exit_last_agent p connw d Hinv Hc) as (q & _ & ->).
Qed.

Lemma spec_select_dispatch p r w addr dst cr :
  dispatch p r w addr dst cr =
    run_action (spec_select (Opt cr) spec_precedence) p r w addr dst cr.
Proof. unfold dispatch, spec_precedence. simpl. by repeat case_match. Qed.

(** C3, as the code has it. For every successfully decoded request that
    passes the auth gate, the dispatcher runs exactly the action the
    precedence DNS, LocalRP, Connect, Forward selects: the first of these
    options that is set decides, whatever the later ones are, and a request
    with none of them set is rejected (AbuseGuard record plus default page). *)
Theorem dispatch_precedence p r w addr dst cr :
  SplitHostPort (RemoteAddr r) = Some addr ->
  decoded r = Some (dst, cr) ->
  auth_gate p cr = true ->
  ServeHTTP p r w =
    run_action (spec_select (Opt cr) spec_precedence) p r w addr dst cr
  ∧ (IsSet (Opt cr) doDNS = true -> ServeHTTP p r w = doDNS_branch p w)
  ∧ (IsSet (Opt cr) doDNS = false -> IsSet (Opt cr) doLocalRP = true ->
       ServeHTTP p r w = doLocalRP_branch p r w dst cr)
  ∧ (IsSet (Opt cr) doDNS = false -> IsSet (Opt cr) doLocalRP = false ->
       IsSet (Opt cr) doConnect = true ->
       ServeHTTP p r w = doConnect_branch p r w dst cr)
  ∧ (IsSet (Opt cr) doDNS = false -> IsSet (Opt cr) doLocalRP = false ->
       IsSet (Opt cr) doConnect = false -> IsSet (Opt cr) doForward = true ->
       ServeHTTP p r w = doForward_branch p w dst cr)
  ∧ (IsSet (Opt cr) doDNS = false -> IsSet (Opt cr) doLocalRP = false ->
       IsSet (Opt cr) doConnect = false -> IsSet (Opt cr) doForward = false ->
       ServeHTTP p r w =
         Returned (set_blacklist (lru_Add addr (blacklist p)) p)
           (replySomething p)).
Proof.
  intros Hs Hd Hg. rewrite (ServeHTTP_decoded _ _ _ _ _ _ Hs Hd), Hg.
  split; [apply spec_select_dispatch |].
  unfold dispatch. split_and!; intros; by simplify_eq/=; repeat case_match.
Qed.

End session.

(** ** The theorems at work on the concrete deployment *)

Section examples.
#[local] Existing Instance ex_externals.

(** C1, counterexample to the wait after the timeout. A dispatcher parked for
    the client on connection 7 whose timer fires: no completion was ever
    signalled, yet the code writes the 502 response, removes the entry of
    connection 7 from the waiting map and returns; it is not parked on the
    completion channel again. *)
Lemma timeout_returns_without_second_wait :
  ServeHTTP_select (ex_session {[ex_token := ex_entry]}) (Some 7)
    case_timeout [ex_token]
  = Returned (ex_session ∅) [ConnWrite 7 (str_bytes timeout502)]
  ∧ ¬ (∃ p' tr cb seconds,
         ServeHTTP_select (ex_session {[ex_token := ex_entry]}) (Some 7)
           case_timeout [ex_token]
         = AwaitSelect p' tr (Some 7) cb seconds).
Proof.
  split; [by vm_compute |].
  intros (p' & tr & cb & seconds & Heq). vm_compute in Heq. discriminate.
Qed.

(** An undecodable request during the session of agent 5: it is queued on
    queue 1 and the dispatcher parks for 30 seconds at most. *)
Lemma decode_failure_with_session_witness :
  SplitHostPort (RemoteAddr (ex_request "/garbage")) = Some "203.0.113.9"
  ∧ decoded (ex_request "/garbage") = None
  ∧ ServeHTTP (ex_session ∅) (ex_request "/garbage") ex_world =
      AwaitSelect (ex_session ∅)
        [MakeChan 4 1;
         SendReq 1 {| dst := ""; end_ := false; conn := Some 8;
                      callback := Some 4; rawReq := str_bytes "/garbage" |}]
        (Some 8) 4 30.
Proof.
  split_and!; [by vm_compute.. |].
  refine (proj1 (decode_failure_with_session (ex_session ∅)
                   (ex_request "/garbage") ex_world "203.0.113.9" 1 ∅
                   _ _ _ _)); by vm_compute.
Defined.

(** C2, counterexample to the removal by the follow-up connection. The agent's
    follow-up for the token of the pending request on connection 7 is
    answered, bridged and signalled on completion channel 3, and the server
    state, with the token still in the waiting map, is what it was. The entry
    goes when the dispatcher of connection 7 wakes and scans the map, with no
    teardown involved. *)
Lemma fulfilment_does_not_remove_the_entry :
  (∃ tr, ServeHTTP (ex_session {[ex_token := ex_entry]})
           (ex_request "/fulfil") ex_world
         = Returned (ex_session {[ex_token := ex_entry]}) tr
         ∧ length tr = 3 ∧ tr !! 2 = Some (SendResp 3 ex_entry))
  ∧ ServeHTTP_select (ex_session {[ex_token := ex_entry]}) (Some 7)
      (case_cb ex_entry) [ex_token]
    = Returned (ex_session ∅) [].
Proof.
  split; [| by vm_compute].
  eexists. split_and!; by vm_compute.
Qed.

(** C3, counterexample to the dispatch of every decoded request. With a Users
    map configured, a request that decodes, bears a token that is not a key
    of the map and has none of the four options set: the precedence would
    reject it, but the dispatcher returns having recorded nothing in
    AbuseGuard and written no page. *)
Lemma stranger_is_neither_dispatched_nor_rejected :
  decoded (ex_request "/stranger") = Some ("example.org:80", ex_cr "mallory" 0)
  ∧ spec_select (Opt (ex_cr "mallory" 0)) spec_precedence = ActReject
  ∧ ServeHTTP (ex_idle (Some ex_users) false) (ex_request "/stranger") ex_world
    = Returned (ex_idle (Some ex_users) false) []
  ∧ run_action ActReject (ex_idle (Some ex_users) false)
      (ex_request "/stranger") ex_world "203.0.113.9" "example.org:80"
      (ex_cr "mallory" 0)
    = Returned
        (set_blacklist (lru_Add "203.0.113.9" (NewCache 128))
           (ex_idle (Some ex_users) false))
        [WriteHeader 404; WriteBody (str_bytes page404)].
Proof. split_and!; by vm_compute. Qed.

(** A decoded request of a configured user with no option set is rejected. *)
Lemma dispatch_precedence_witness :
  SplitHostPort (RemoteAddr (ex_request "/plain")) = Some "203.0.113.9"
  ∧ decoded (ex_request "/plain") = Some ("example.org:80", ex_cr "alice" 0)
  ∧ auth_gate (ex_idle (Some ex_users) false) (ex_cr "alice" 0) = true
  ∧ ServeHTTP (ex_idle (Some ex_users) false) (ex_request "/plain") ex_world
    = run_action ActReject (ex_idle (Some ex_users) false)
        (ex_request "/plain") ex_world "203.0.113.9" "example.org:80"
        (ex_cr "alice" 0).
Proof.
  split_and!; [by vm_compute.. |].
  refine (proj1 (dispatch_precedence (ex_idle (Some ex_users) false)
                   (ex_request "/plain") ex_world "203.0.113.9"
                   "example.org:80" (ex_cr "alice" 0) _ _ _)); by vm_compute.
Defined.

(** A pending request with a destination of 65535 bytes. *)
Lemma routingLoop_oversized_destination_witness :
  (65535 <= Z.of_nat (String.length ex_long))%Z
  ∧ routingLoop_iter (ex_session ∅)
      {| dst := ex_long; end_ := false; conn := Some 7; callback := Some 3;
         rawReq := [] |} ex_rand
    = LoopContinue (ex_session ∅)
        [SendResp 3 {| err := Some "request too long"; localrpr := "";
                       req := zeroReq |}].
Proof.
  split; [by vm_compute |].
  refine (proj1 (routingLoop_oversized_destination (ex_session ∅)
                   {| dst := ex_long; end_ := false; conn := Some 7;
                      callback := Some 3; rawReq := [] |} ex_rand 1 3 _ _ _ _));
    by vm_compute.
Defined.

(** The pending request of connection 7, with the random source counting
    from 0: token 00 01 .. 0f, length 14, then the 14 bytes of the request. *)
Lemma routingLoop_control_message_witness :
  downConns (localRP (ex_session ∅)) ≠ []
  ∧ (Z.of_nat (String.length (dst ex_pending)) < 65535)%Z
  ∧ (Z.of_nat (length (rawReq ex_pending)) < 2 ^ 32)%Z
  ∧ routingLoop_iter (ex_session ∅) ex_pending ex_rand
    = LoopContinue (ex_session {[ex_token := ex_entry]})
        [Go (ConnwWrite 5
               ([0; 1; 2; 3; 4; 5; 6; 7; 8; 9; 10; 11; 12; 13; 14; 15]%Z
                ++ [0; 0; 0; 14]%Z ++ str_bytes "GET / HTTP/1.1"))].
Proof.
  assert (downConns (localRP (ex_session ∅)) ≠ []) as Hne by done.
  split_and!; [done | by vm_compute.. |].
  destruct (routingLoop_control_message (ex_session ∅) ex_pending ex_rand 1 ∅)
    as (token & connw & -> & _ & Hin & -> & _); [by vm_compute.. |].
  apply list_elem_of_singleton in Hin as ->. by vm_compute.
Defined.

(** An undecodable request on an idle server: the 404 page, and one hit for
    the address. *)
Lemma undecodable_without_session_witness :
  SplitHostPort (RemoteAddr (ex_request "/garbage")) = Some "203.0.113.9"
  ∧ decoded (ex_request "/garbage") = None
  ∧ 0 < maxEntries (blacklist (ex_idle None false))
  ∧ ∃ p', ServeHTTP (ex_idle None false) (ex_request "/garbage") ex_world
          = Returned p' [WriteHeader 404; WriteBody (str_bytes page404)]
          ∧ lru_hits (blacklist (ex_idle None false)) "203.0.113.9" = 0%Z
          ∧ lru_hits (blacklist p') "203.0.113.9" = 1%Z.
Proof.
  split_and!; [by vm_compute | by vm_compute | simpl; lia |].
  destruct (undecodable_without_session (ex_idle None false)
              (ex_request "/garbage") ex_world "203.0.113.9")
    as (p' & Hserve & _ & Hhits & _);
    [by vm_compute | by vm_compute | by vm_compute | simpl; lia |].
  exists p'. split_and!; [exact Hserve | by vm_compute | by rewrite Hhits].
Defined.

(** The handshake of RFC 6455, section 1.3. *)
Lemma replyGood_websocket_accept_witness :
  IsSet (Opt (ex_cr "alice" 5)) doWebSocket = true
  ∧ Header_Get (ex_request "/plain") "Sec-WebSocket-Key"
    = "dGhlIHNhbXBsZSBub25jZQ=="
  ∧ replyGood (Some 8) (ex_cr "alice" 5) (getIOConfig (ex_idle None false) "alice")
      (ex_request "/plain") ex_world
    = Some (set_WSCtrl wsServer (getIOConfig (ex_idle None false) "alice"),
            [ConnWrite 8
               (str_bytes
                  ("HTTP/1.1 101 Switching Protocols" +:+ CRLF
                   +:+ "Upgrade: websocket" +:+ CRLF
                   +:+ "Connection: upgrade" +:+ CRLF
                   +:+ "Sec-WebSocket-Accept: s3pPLMBiTxaQ9kYGzzhZRbK+xOo="
                   +:+ CRLF +:+ CRLF))]).
Proof.
  split_and!; [by vm_compute.. |].
  destruct (replyGood_websocket_accept (H := ex_externals)
              (ex_cr "alice" 5) (ex_request "/plain")
              ex_world 8 (getIOConfig (ex_idle None false) "alice"))
    as [Hreply _]; [by vm_compute |].
  etrans; [exact Hreply | by vm_compute].
Defined.

(** The one configured user. *)
Lemma auth_accepts_exactly_the_keys_witness :
  Users (config (ex_idle (Some ex_users) false)) = Some ex_users
  ∧ (auth (ex_idle (Some ex_users) false) "alice" = true
     <-> "alice" ∈ dom ex_users).
Proof.
  split; [done |].
  refine (proj1 (auth_accepts_exactly_the_keys (ex_idle (Some ex_users) false)
                   ex_users "alice" _)); by vm_compute.
Defined.

(** A registration on a server with LocalRP disabled. *)
Lemma registration_refused_when_disabled_witness :
  DisableLRP (config (ex_idle None true)) = true
  ∧ startLocalRPControlServer (ex_idle None true) (Some 8) (ex_cr "alice" 128)
      (getIOConfig (ex_idle None true) "alice") ex_world
    = Returned (ex_idle None true)
        [ConnWrite 8 (str_bytes ("HTTP/1.1 200 OK" +:+ CRLF +:+ CRLF));
         ConnClose 8].
Proof.
  split; [done |].
  refine (proj1 (registration_refused_when_disabled (ex_idle None true) 8
                   (ex_cr "alice" 128) (getIOConfig (ex_idle None true) "alice")
                   ex_world _)); by vm_compute.
Defined.

(** The first registration on an idle server starts a session: queue and
    waiting map are created, the routing loop, the bridge and the heartbeat
    are started. The exit of one of two agents leaves the session running. *)
Example first_registration_starts_the_session :
  ServeHTTP (ex_idle None false) (ex_request "/register") ex_world
  = Returned
      (set_localRP {| downstreams := [8]; downConns := [5];
                      requests := Some 1; waiting := Some ∅ |}
         (ex_idle None false))
      [ConnWrite 8 (str_bytes okLine); MakeChan 1 16; Go RoutingLoop;
       Go (Bridge (NetConn (Some 8)) (Dummy 5) [1; 2; 3]%Z
             {| Bucket := None; Partial := false; WSCtrl := wsNone |});
       Go (Heartbeat 5 8)].
Proof. by vm_compute. Qed.

Example exit_of_one_of_two_agents :
  heartbeat_exit
    (set_localRP {| downstreams := [6; 8]; downConns := [5; 7];
                    requests := Some 1; waiting := Some ∅ |}
       (ex_idle None false)) 5 6
  = Returned
      (set_localRP {| downstreams := [8]; downConns := [7];
                      requests := Some 1; waiting := Some ∅ |}
         (ex_idle None false))
      [ConnClose 6].
Proof. by vm_compute. Qed.
End examples.

(** ** Further properties of the controller and the dispatcher *)

Lemma index_of_None connw l : connw ∉ l -> index_of connw l = None.
Proof.
  intros Hnin. destruct (index_of connw l) as [i|] eqn:Hi; [| done].
  destruct Hnin. eapply list_elem_of_lookup_2. by apply index_of_lookup.
Qed.

Lemma session_inv_heartbeat_exit_any p connw d :
  session_inv p -> session_inv (outcome_state (heartbeat_exit p connw d)).
Proof.
  intros Hinv. destruct (decide (connw ∈ downConns (localRP p))) as [Hin|Hnin].
  - by destruct (session_inv_heartbeat_exit p connw d Hinv Hin) as (p' & tr & -> & ?).
  - pose proof Hinv as (Hlen & Hq & Hw).
    unfold heartbeat_exit. rewrite (index_of_None _ _ Hnin).
    destruct (decide (length (downstreams (localRP p)) = 0)) as [Hz|Hnz].
    + assert (downConns (localRP p) = []) as Hnil
        by (apply nil_length_inv; lia).
      assert (requests (localRP p) = None) as Hreq by (by apply Hq).
      rewrite Hreq. simpl. by rewrite set_localRP_same.
    + simpl. by rewrite set_localRP_same.
Qed.

Lemma delete_lookup_length {A} (l : list A) i x :
  l !! i = Some x -> length (delete i l) = length l - 1.
Proof. intros Hl. apply length_delete. eauto. Qed.

Lemma heartbeat_exit_send_true p connw d :
  heartbeat_exit_send p connw d true = heartbeat_exit p connw d.
Proof. unfold heartbeat_exit_send, heartbeat_exit. by repeat case_match. Qed.

(** The exit of a registered agent's heartbeat, in a state that satisfies
    the session invariant. The queue handle is set, the agent is found in the
    list and removed from both lists at the same index (no index out of
    range, no panic), and the lists stay in step. While agents remain the
    exit performs no channel operation: it returns with the queue handle and
    the waiting map as they were, and the close of its socket is its only
    effect. When it has removed the last agent it sends the poison on the
    session's own queue, never on a nil handle, and that send is the one
    place where it can wait. If the send goes through, the handles are
    cleared and the socket is closed last. If it never does (the bounded
    queue is full and the routing loop is not at its receive), the task stays
    at the send: the agent is already off the lists, the queue handle and the
    waiting map are still set, and its socket is never closed. AbuseGuard and
    configuration are untouched in every case. *)
Theorem registered_agent_exit p connw d sent :
  session_inv p ->
  connw ∈ downConns (localRP p) ->
  ∃ i q l1,
    downConns (localRP p) !! i = Some connw
    ∧ requests (localRP p) = Some q
    ∧ l1 = {| downstreams := delete i (downstreams (localRP p));
              downConns := delete i (downConns (localRP p));
              requests := Some q; waiting := waiting (localRP p) |}
    ∧ length (downConns l1) = length (downConns (localRP p)) - 1
    ∧ length (downstreams l1) = length (downConns l1)
    ∧ heartbeat_exit_send p connw d sent =
        if decide (downConns l1 = []) then
          if sent then
            Returned
              (set_localRP {| downstreams := []; downConns := [];
                              requests := None; waiting := None |} p)
              [SendReq q poison; ConnClose d]
          else BlockedForever (set_localRP l1 p) []
        else Returned (set_localRP l1 p) [ConnClose d].
Proof.
  intros (Hlen & Hq & Hw) Hin.
  destruct (index_of_elem _ _ Hin) as [i Hi].
  pose proof (index_of_lookup _ _ _ Hi) as Hli.
  assert (i < length (downConns (localRP p))) as Hlt
    by (apply lookup_lt_is_Some; eauto).
  destruct (lookup_lt_is_Some_2 (downstreams (localRP p)) i) as [x Hx]; [lia |].
  pose proof (delete_lookup_length _ _ _ Hli) as Hl1.
  pose proof (delete_lookup_length _ _ _ Hx) as Hl2.
  destruct (requests (localRP p)) as [q|] eqn:Hreq.
  2:{ assert (downConns (localRP p) = []) as Hnil by (by apply Hq).
      rewrite Hnil in Hin. by apply elem_of_nil in Hin. }
  exists i, q. eexists. split_and!; [done | done | done | simpl; lia.. |].
  unfold heartbeat_exit_send. rewrite Hi. rewrite decide_True by lia. simpl.
  destruct (decide (length (delete i (downstreams (localRP p))) = 0))
    as [Hz|Hnz]; rewrite ?Hreq; simpl.
  - assert (delete i (downConns (localRP p)) = []) as Hnil
      by (apply nil_length_inv; lia).
    assert (delete i (downstreams (localRP p)) = []) as Hnil'
      by (by apply nil_length_inv).
    rewrite decide_True by done. by rewrite Hnil, Hnil'.
  - rewrite decide_False; [done |].
    intros Hnil. rewrite Hnil in Hl1. simpl in *. lia.
Qed.

(** A registration that is accepted (LocalRP enabled, the 200 OK line
    written, a queue capacity that make accepts): the agent's socket and its
    fresh endpoint are appended at the end of the two lists; a session that
    is running keeps its queue handle and its waiting map with every entry,
    a new one gets a fresh queue and an empty map; the 200 OK line is the
    first effect, a bridge and a heartbeat are started for the agent, and the
    routing loop is started exactly when no agent was registered before. *)
Theorem registration_appends_agent p d cr ioc w :
  DisableLRP (config p) = false ->
  ctrl_write_err w = false ->
  (requests (localRP p) = None -> (0 <= LBindCap (config p))%Z) ->
  ∃ p' tr,
    startLocalRPControlServer p (Some d) cr ioc w = Returned p' tr
    ∧ downstreams (localRP p') = downstreams (localRP p) ++ [d]
    ∧ downConns (localRP p') = downConns (localRP p) ++ [new_DummyConn w]
    ∧ (∀ wm, waiting (localRP p) = Some wm -> waiting (localRP p') = Some wm)
    ∧ (waiting (localRP p) = None -> waiting (localRP p') = Some ∅)
    ∧ (∀ q, requests (localRP p) = Some q ->
         requests (localRP p') = Some q ∧ ∀ q' n, MakeChan q' n ∉ tr)
    ∧ (requests (localRP p) = None ->
         requests (localRP p') = Some (make_requests w)
         ∧ MakeChan (make_requests w) (LBindCap (config p)) ∈ tr)
    ∧ (Go RoutingLoop ∈ tr ↔ downConns (localRP p) = [])
    ∧ tr !! 0 = Some (ConnWrite d (str_bytes okLine))
    ∧ Go (Bridge (NetConn (Some d)) (Dummy (new_DummyConn w)) (iv cr) ioc) ∈ tr
    ∧ Go (Heartbeat (new_DummyConn w) d) ∈ tr
    ∧ blacklist p' = blacklist p ∧ config p' = config p.
Proof.
  intros Hen Hwr Hcap. unfold startLocalRPControlServer. rewrite Hwr, Hen.
  assert (length (downConns (localRP p) ++ [new_DummyConn w]) = 1
          ↔ downConns (localRP p) = []) as Hone.
  { rewrite length_app. simpl. split.
    - intros ?. apply nil_length_inv. lia.
    - by intros ->. }
  destruct (requests (localRP p)) as [q|] eqn:Hreq.
  - do 2 eexists. split; [done |]. simpl.
    split_and!; try done.
    + by destruct (waiting (localRP p)).
    + by intros ->.
    + intros q' [= <-]. split; [done |]. intros q'' n.
      case_decide; in_trace.
    + case_decide as Hd; rewrite Hone in Hd; in_trace.
    + case_decide; in_trace.
    + case_decide; in_trace.
  - rewrite bool_decide_false by (specialize (Hcap eq_refl); lia).
    do 2 eexists. split; [done |]. simpl.
    split_and!; try done.
    + by destruct (waiting (localRP p)).
    + by intros ->.
    + intros _. split; [done | in_trace].
    + case_decide as Hd; rewrite Hone in Hd; in_trace.
    + case_decide; in_trace.
    + case_decide; in_trace.
Qed.

Section dispatcher_properties.
Context `{Externals}.

(** The session invariant holds in the state [NewServer] builds and is kept
    by everything that touches the session: a registration, a request to
    the dispatcher, the wake-up of a parked dispatcher, a turn of the routing
    loop and the exit of a heartbeat, whatever their outcome. *)
Theorem session_invariant_preserved :
  (∀ cfg url_ok p, NewServer cfg url_ok = Some p -> session_inv p)
  ∧ ∀ p, session_inv p ->
      (∀ downstream cr ioc w,
         session_inv (outcome_state (startLocalRPControlServer p downstream cr ioc w)))
      ∧ (∀ r w, session_inv (outcome_state (ServeHTTP p r w)))
      ∧ (∀ uc sel order, session_inv (outcome_state (ServeHTTP_select p uc sel order)))
      ∧ (∀ rq rnd, session_inv (loop_state (routingLoop_iter p rq rnd)))
      ∧ (∀ connw d, session_inv (outcome_state (heartbeat_exit p connw d))).
Proof.
  split.
  - intros cfg url_ok p Hnew. apply session_inv_torn_down.
    by eapply NewServer_torn_down.
  - intros p Hinv. split_and!; intros.
    + by apply session_inv_start.
    + by apply session_inv_ServeHTTP.
    + by apply session_inv_select.
    + by apply session_inv_routingLoop.
    + by apply session_inv_heartbeat_exit_any.
Qed.

Lemma startLocalRPControlServer_keeps_rest p downstream cr ioc w :
  let p' := outcome_state (startLocalRPControlServer p downstream cr ioc w) in
  blacklist p' = blacklist p ∧ rp p' = rp p ∧ config p' = config p.
Proof. unfold startLocalRPControlServer. by repeat case_match. Qed.

(** The dispatcher and AbuseGuard. A request never changes the fallback
    handler or the configuration, and it either leaves the AbuseGuard cache
    alone or records exactly one hit, for the host part of its own remote
    address; in that case it has returned having written the default page
    and nothing else, with the session untouched. *)
Theorem ServeHTTP_records_with_default_page_only p r w :
  rp (outcome_state (ServeHTTP p r w)) = rp p
  ∧ config (outcome_state (ServeHTTP p r w)) = config p
  ∧ (blacklist (outcome_state (ServeHTTP p r w)) = blacklist p
     ∨ ∃ addr,
         SplitHostPort (RemoteAddr r) = Some addr
         ∧ ServeHTTP p r w =
             Returned (set_blacklist (lru_Add addr (blacklist p)) p)
               (replySomething p)).
Proof.
  destruct (SplitHostPort (RemoteAddr r)) as [addr|] eqn:Hs.
  2:{ unfold ServeHTTP. rewrite Hs. simpl. by auto. }
  destruct (decoded r) as [[dst cr]|] eqn:Hd.
  - rewrite (ServeHTTP_decoded _ _ _ _ _ _ Hs Hd).
    destruct (auth_gate p cr); [| simpl; by auto].
    unfold dispatch.
    destruct (IsSet (Opt cr) doDNS); [simpl; by auto |].
    destruct (IsSet (Opt cr) doLocalRP).
    { unfold doLocalRP_branch. destruct (decide (dst = "localrp")).
      - destruct (startLocalRPControlServer_keeps_rest p (hijack w) cr
          (set_Partial (IsSet (Opt cr) doPartial) (getIOConfig p (Auth cr))) w)
          as (? & ? & ?). by auto.
      - repeat case_match; simpl; by auto. }
    destruct (IsSet (Opt cr) doConnect).
    { unfold doConnect_branch. repeat case_match; simpl; by auto. }
    destruct (IsSet (Opt cr) doForward).
    { unfold doForward_branch. repeat case_match; simpl; by auto. }
    simpl. split_and!; [done.. |]. right. by exists addr.
  - rewrite (ServeHTTP_undecoded _ _ _ _ Hs Hd).
    destruct (waiting (localRP p)), (requests (localRP p)); simpl;
      split_and!; try done; try (by left); right; by exists addr.
Qed.

(** The nil connection. The dispatcher calls Write on what the hijack
    returned without a nil check in the LocalRP paths, and make panics on a
    negative capacity. With a socket that can be hijacked, and a queue
    capacity that make accepts if a queue has to be made, neither happens in
    a request, nor in the wake-up of a dispatcher parked with a socket. A
    dispatcher parked without one (the hijack failed) panics when its timer
    fires or when an error is signalled, since it writes to the nil
    connection. *)
Theorem ServeHTTP_panics_only_without_socket p r w c :
  hijack w = Some c ->
  (requests (localRP p) = None -> (0 <= LBindCap (config p))%Z) ->
  is_Panicked (ServeHTTP p r w) = false
  ∧ (∀ p' sel order, is_Panicked (ServeHTTP_select p' (Some c) sel order) = false)
  ∧ (∀ p' order, is_Panicked (ServeHTTP_select p' None case_timeout order) = true)
  ∧ (∀ p' resp e order,
       err resp = Some e ->
       is_Panicked (ServeHTTP_select p' None (case_cb resp) order) = true).
Proof.
  intros Hh Hcap. split_and!.
  - destruct (SplitHostPort (RemoteAddr r)) as [addr|] eqn:Hs;
      [| unfold ServeHTTP; by rewrite Hs].
    destruct (decoded r) as [[dst cr]|] eqn:Hd.
    + rewrite (ServeHTTP_decoded _ _ _ _ _ _ Hs Hd).
      destruct (auth_gate p cr); [| done]. unfold dispatch.
      destruct (IsSet (Opt cr) doDNS); [done |].
      destruct (IsSet (Opt cr) doLocalRP).
      { unfold doLocalRP_branch, startLocalRPControlServer, replyGood.
        rewrite Hh. destruct (decide (dst = "localrp")).
        - destruct (ctrl_write_err w); [done |].
          destruct (DisableLRP (config p)); [done |].
          destruct (requests (localRP p)); [done |].
          by rewrite bool_decide_false by (specialize (Hcap eq_refl); lia).
        - by repeat case_match. }
      destruct (IsSet (Opt cr) doConnect).
      { unfold doConnect_branch, replyGood. rewrite Hh. by repeat case_match. }
      destruct (IsSet (Opt cr) doForward); [| done].
      unfold doForward_branch. by repeat case_match.
    + rewrite (ServeHTTP_undecoded _ _ _ _ Hs Hd). by repeat case_match.
  - intros p' sel order. unfold ServeHTTP_select. by repeat case_match.
  - done.
  - intros p' resp e order He. unfold ServeHTTP_select. by rewrite He.
Qed.

(** The Connect branch and the hijacked socket. The server state is left as
    it was. The socket is hijacked and then closed exactly when UDP relay is
    asked for while disabled (and then nothing is dialled) or the dial fails,
    and a socket that gets closed has not been written to; otherwise the
    success response is written to it before the upgrade or the bridge, which
    is the last effect. *)
Theorem doConnect_branch_socket p r w dst cr d :
  dst ≠ "" ->
  hijack w = Some d ->
  let udp_off := IsSet (Opt cr) doUDPRelay && DisableUDP (config p) in
  ∃ tr,
    doConnect_branch p r w dst cr = Returned p tr
    ∧ (udp_off = true -> tr = [ConnClose d])
    ∧ (udp_off = false -> Dial w = None ->
         tr = [Dialed (if IsSet (Opt cr) doUDPRelay then "udp" else "tcp") dst;
               ConnClose d])
    ∧ (∀ target, udp_off = false -> Dial w = Some target ->
         ∃ ioc last,
           tr = [Dialed (if IsSet (Opt cr) doUDPRelay then "udp" else "tcp") dst;
                 ConnWrite d (str_bytes (replyGood_buffer cr r w)); last]
           ∧ last = (if IsSet (Opt cr) doMuxWS then Upgrade d
                     else Go (Bridge (NetConn (Some d)) (NetConn (Some target))
                                (iv cr) ioc))
           ∧ Partial ioc = IsSet (Opt cr) doPartial
           ∧ (WSCtrl ioc = wsServer ↔ IsSet (Opt cr) doWebSocket = true))
    ∧ (Exists (λ e, is_ConnClose e = true) tr ->
         Forall (λ e, is_ConnWrite e = false) tr).
Proof.
  intros Hdst Hh udp_off. unfold doConnect_branch, replyGood.
  rewrite decide_False by done. rewrite Hh. fold udp_off.
  assert (∀ tr : list event,
    Exists (λ e, is_ConnClose e = true) tr ->
    Forall (λ e, is_ConnClose e = false) tr -> False) as Hno.
  { intros tr Hex Hall. apply Exists_exists in Hex as (e & Hin & He).
    rewrite Forall_forall in Hall. specialize (Hall e Hin). congruence. }
  destruct udp_off eqn:Hoff.
  { eexists. split; [done |]. split_and!; try done.
    intros _. by repeat constructor. }
  destruct (Dial w) as [target|] eqn:Hdial.
  2:{ eexists. split; [done |]. split_and!; try done.
      intros _. by repeat constructor. }
  destruct (IsSet (Opt cr) doWebSocket) eqn:Hws,
    (IsSet (Opt cr) doMuxWS) eqn:Hmux.
  all: eexists; split; [done |]; split_and!; try done.
  all: try (intros target' _ [= <-];
            exists (if IsSet (Opt cr) doWebSocket
                    then set_WSCtrl wsServer
                           (set_Partial (IsSet (Opt cr) doPartial)
                              (getIOConfig p (Auth cr)))
                    else set_Partial (IsSet (Opt cr) doPartial)
                           (getIOConfig p (Auth cr)));
            rewrite Hws; eexists; split; [done |];
            split_and!; [done | done | by split]).
  all: intros Hex; destruct (Hno _ Hex); by repeat constructor.
Qed.
End dispatcher_properties.

(** ** The control message, the token and the success response *)

Lemma Forall_Rand_Read rnd n :
  Forall (λ b, (0 <= b < 256)%Z) (Rand_Read rnd n).
Proof.
  unfold Rand_Read. apply Forall_forall. intros b Hb.
  apply in_map_iff in Hb as (i & <- & _).
  apply Z.mod_pos_bound. lia.
Qed.

Lemma Forall_PutUint32 v : Forall (λ b, (0 <= b < 256)%Z) (PutUint32 v).
Proof. unfold PutUint32. repeat constructor; apply Z.mod_pos_bound; lia. Qed.

(** What a reader of the control message finds, for a raw request of any
    size: the message is 20 bytes longer than the raw request, its first 16
    bytes are the token, the raw request starts at offset 20 and runs to the
    end, and the 4 bytes between them decode, big-endian, to the length of
    the raw request modulo 2^32 (the conversion to uint32 drops the higher
    bits of a length of 4 GiB or more). Every byte of the header is a byte. *)
Theorem control_message_fields rnd rq :
  let msg := control_message rnd rq in
  length msg = 20 + length (rawReq rq)
  ∧ take 16 msg = Rand_Read rnd 16
  ∧ Uint32 (take 4 (drop 16 msg)) = (Z.of_nat (length (rawReq rq)) mod 2 ^ 32)%Z
  ∧ drop 20 msg = rawReq rq
  ∧ Forall (λ b, (0 <= b < 256)%Z) (take 20 msg).
Proof.
  cbv zeta. rewrite control_message_layout.
  set (tok := Rand_Read rnd 16). set (len := PutUint32 _).
  assert (length tok = 16) as Htok by apply length_Rand_Read.
  assert (length len = 4) as Hlen by done.
  split_and!.
  - rewrite !length_app, Htok, Hlen. lia.
  - by apply take_app_length'.
  - rewrite drop_app_length' by done. rewrite take_app_length' by done.
    apply Uint32_PutUint32. unfold uint32. apply Z.mod_pos_bound. lia.
  - rewrite app_assoc. apply drop_app_length'. by rewrite length_app, Htok, Hlen.
  - rewrite app_assoc. rewrite take_app_length'
      by (by rewrite length_app, Htok, Hlen).
    apply Forall_app. split; [apply Forall_Rand_Read | apply Forall_PutUint32].
Qed.

Lemma length_str_bytes s : length (str_bytes s) = String.length s.
Proof.
  unfold str_bytes. rewrite length_map.
  induction s as [|c s IH]; simpl; [done | by rewrite IH].
Qed.

Lemma length_sha1_Sum m : length (sha1.Sum m) = 20.
Proof.
  unfold sha1.Sum.
  by destruct (fold_left sha1.compress _ _) as [[[[h0 h1] h2] h3] h4].
Qed.

Lemma length_base64 b :
  String.length (base64.EncodeToString b) = 4 * ((length b + 2) / 3).
Proof.
  assert (∀ b,
    String.length (base64.EncodeToString b) = 4 * ((length b + 2) / 3)
    ∧ (∀ x, String.length (base64.EncodeToString (x :: b))
            = 4 * ((length (x :: b) + 2) / 3))
    ∧ (∀ x y, String.length (base64.EncodeToString (x :: y :: b))
              = 4 * ((length (x :: y :: b) + 2) / 3))) as Hall.
  { clear b. induction b as [|a b (IH0 & IH1 & IH2)]; [done |].
    split_and!; [apply IH1 | intros; apply IH2 |].
    intros x y. change (base64.EncodeToString (x :: y :: a :: b))
      with (String (base64.enc (x / 4))
              (String (base64.enc (x mod 4 * 16 + y / 16))
                 (String (base64.enc (y mod 16 * 4 + a / 64))
                    (String (base64.enc (a mod 64)) (base64.EncodeToString b))))).
    cbn [String.length length]. rewrite IH0.
    replace (S (S (S (length b))) + 2) with (1 * 3 + (length b + 2)) by lia.
    rewrite Nat.div_add_l by lia. lia. }
  apply Hall.
Qed.

Section success_response.
Context `{Externals}.

(** The WebSocket success response has a fixed size: whatever the client sent
    as Sec-WebSocket-Key, or if it sent none, the accept value is 28
    characters and the response [replyGood] writes is 129 bytes. *)
Theorem replyGood_websocket_size cr r w c ioc :
  IsSet (Opt cr) doWebSocket = true ->
  String.length
    (base64.EncodeToString
       (sha1.Sum (str_bytes (Header_Get r "Sec-WebSocket-Key" +:+ websocketGUID))))
  = 28
  ∧ ∃ ioc' b, replyGood (Some c) cr ioc r w = Some (ioc', [ConnWrite c b])
              ∧ length b = 129.
Proof.
  intros Hws.
  assert (String.length (base64.EncodeToString
            (sha1.Sum (str_bytes (Header_Get r "Sec-WebSocket-Key"
                                  +:+ websocketGUID)))) = 28) as Hacc
    by (by rewrite length_base64, length_sha1_Sum).
  split; [done |].
  unfold replyGood, replyGood_buffer. rewrite Hws. do 2 eexists. split; [done |].
  rewrite !str_bytes_app, !length_app, !length_str_bytes.
  by rewrite length_base64, length_sha1_Sum.
Qed.
End success_response.

(** ** The heartbeat loop *)

Lemma heartbeat_loop_pongs connw n answers :
  heartbeat_loop connw (replicate n pong ++ answers) =
    (concat (replicate n (heartbeat_round connw))
     ++ (heartbeat_loop connw answers).1,
     (heartbeat_loop connw answers).2).
Proof.
  induction n as [|n IH]; simpl; [by destruct (heartbeat_loop connw answers) |].
  by rewrite IH.
Qed.

(** The heartbeat loop has no retry. After [n] rounds that succeed, a failing
    write ends the task after that ping, with no read attempted, and a
    failing read ends it after that read; whatever the endpoint would have
    answered later plays no part, and the exit code runs. Every ping is a
    fresh buffer of 16 zero bytes. As long as every round succeeds the task
    keeps running and the exit code does not run. *)
Theorem heartbeat_stops_at_first_error p connw d n a rest :
  a ≠ pong ->
  heartbeat p connw d (replicate n pong ++ a :: rest) =
    (concat (replicate n (heartbeat_round connw))
     ++ match a with
        | write_fails => [Ping connw (replicate 16 0%Z)]
        | _ => [Ping connw (replicate 16 0%Z); Pong connw]
        end,
     Some (heartbeat_exit p connw d))
  ∧ heartbeat p connw d (replicate n pong) =
      (concat (replicate n (heartbeat_round connw)), None).
Proof.
  intros Ha. unfold heartbeat. split.
  - rewrite heartbeat_loop_pongs. by destruct a.
  - rewrite <- (app_nil_r (replicate n pong)), heartbeat_loop_pongs. simpl.
    by rewrite app_nil_r.
Qed.

(** ** The rendezvous *)

Lemma length_hex b : String.length (hex b) = 2 * length b.
Proof. induction b as [|x b IH]; simpl; [done | rewrite IH; lia]. Qed.

Lemma hexdigit_code n :
  (0 <= n < 16)%Z ->
  Z.of_nat (nat_of_ascii (hexdigit n)) = (if (n <? 10)%Z then 48 + n else 87 + n)%Z.
Proof.
  intros Hn. rewrite <- (Z2Nat.id n) by lia.
  assert (Z.to_nat n < 16) as Hk by lia. revert Hk.
  generalize (Z.to_nat n). intros k Hk.
  do 16 (destruct k as [|k]; [reflexivity |]). lia.
Qed.

Lemma hexdigit_inj a b :
  (0 <= a < 16)%Z -> (0 <= b < 16)%Z -> hexdigit a = hexdigit b -> a = b.
Proof.
  intros Ha Hb Heq.
  apply (f_equal (λ c, Z.of_nat (nat_of_ascii c))) in Heq.
  rewrite !hexdigit_code in Heq by done.
  destruct (Z.ltb_spec a 10), (Z.ltb_spec b 10); lia.
Qed.

Lemma hexdigit_mod x : hexdigit x = hexdigit (x mod 16).
Proof. unfold hexdigit. by rewrite Z.mod_mod. Qed.

Lemma hex_inj a b :
  Forall (λ x, (0 <= x < 256)%Z) a -> Forall (λ x, (0 <= x < 256)%Z) b ->
  hex a = hex b -> a = b.
Proof.
  intros Ha. revert b. induction Ha as [|x a Hx Ha IH]; intros b Hb Heq.
  - by destruct b.
  - destruct Hb as [|y b Hy Hb]; [done |]. simpl in Heq.
    injection Heq as Hhi Hlo Hrest.
    rewrite (hexdigit_mod x), (hexdigit_mod y) in Hlo.
    apply hexdigit_inj in Hhi; [| Z.div_mod_to_equations; lia..].
    apply hexdigit_inj in Hlo; [| Z.div_mod_to_equations; lia..].
    f_equal; [Z.div_mod_to_equations; lia | by apply IH].
Qed.

Lemma routingLoop_iter_dispatch p rq rnd q wm :
  requests (localRP p) = Some q ->
  waiting (localRP p) = Some wm ->
  downConns (localRP p) ≠ [] ->
  end_ rq = false ->
  (Z.of_nat (String.length (dst rq)) < 65535)%Z ->
  ∃ connw,
    connw ∈ downConns (localRP p)
    ∧ routingLoop_iter p rq rnd =
        LoopContinue
          (set_localRP
             (set_waiting
                (Some (<[hex (Rand_Read rnd 16) :=
                         {| err := None; localrpr := hex (Rand_Read rnd 16);
                            req := rq |}]> wm))
                (localRP p)) p)
          [Go (ConnwWrite connw (control_message rnd rq))].
Proof.
  intros Hq Hwm Hne Hend Hdst.
  set (p' := set_localRP (set_waiting (Some (<[hex (Rand_Read rnd 16) :=
    {| err := None; localrpr := hex (Rand_Read rnd 16); req := rq |}]> wm))
    (localRP p)) p).
  destruct (pickAControlConn_elem p' rnd) as (connw & Hpick & Hin); [done |].
  exists connw. split; [done |].
  unfold routingLoop_iter. rewrite Hq, Hend, Hwm.
  destruct (Z.leb_spec 65535 (Z.of_nat (String.length (dst rq)))); [lia |].
  rewrite control_message_token. fold p'. by rewrite Hpick.
Qed.

Lemma set_waiting_restore p wm wm' :
  waiting (localRP p) = Some wm ->
  set_localRP
    (set_waiting (Some wm)
       (localRP (set_localRP (set_waiting (Some wm') (localRP p)) p)))
    (set_localRP (set_waiting (Some wm') (localRP p)) p) = p.
Proof. destruct p as [? ? [? ? ? ?] ?]. simpl. by intros ->. Qed.

(** The routing loop touches nothing but the waiting map: whatever the
    request and however the turn ends, the agent lists, the queue handle,
    AbuseGuard, the fallback handler and the configuration are what they
    were, the waiting map is unchanged or has gained the one entry of this
    request under its token, and at most one effect is performed. A poison
    entry ends the loop without any effect, whatever its other fields hold. *)
Theorem routingLoop_footprint p rq rnd :
  let p' := loop_state (routingLoop_iter p rq rnd) in
  downstreams (localRP p') = downstreams (localRP p)
  ∧ downConns (localRP p') = downConns (localRP p)
  ∧ requests (localRP p') = requests (localRP p)
  ∧ blacklist p' = blacklist p ∧ rp p' = rp p ∧ config p' = config p
  ∧ (waiting (localRP p') = waiting (localRP p)
     ∨ ∃ wm, waiting (localRP p) = Some wm
             ∧ waiting (localRP p') =
                 Some (<[hex (Rand_Read rnd 16) :=
                         {| err := None; localrpr := hex (Rand_Read rnd 16);
                            req := rq |}]> wm))
  ∧ length (loop_trace (routingLoop_iter p rq rnd)) ≤ 1
  ∧ (end_ rq = true -> ∀ q, requests (localRP p) = Some q ->
       routingLoop_iter p rq rnd = LoopExit p []).
Proof.
  cbv zeta. unfold routingLoop_iter. rewrite control_message_token.
  repeat case_match; simpl; split_and!;
    try done; try (by left); try lia; try (right; by eauto).
Qed.

(** Between two sessions nothing of the waiting map survives. When the last
    agent's heartbeat exits and an agent registers afterwards, the new
    session has that agent alone, a freshly made queue, an empty waiting
    map whatever the old one held, and a routing loop started for it. *)
Theorem session_restart p connw d d' cr ioc w :
  session_inv p ->
  downConns (localRP p) = [connw] ->
  DisableLRP (config p) = false ->
  ctrl_write_err w = false ->
  (0 <= LBindCap (config p))%Z ->
  ∃ p1 tr1 p2 tr2,
    heartbeat_exit p connw d = Returned p1 tr1
    ∧ startLocalRPControlServer p1 (Some d') cr ioc w = Returned p2 tr2
    ∧ downstreams (localRP p2) = [d']
    ∧ downConns (localRP p2) = [new_DummyConn w]
    ∧ requests (localRP p2) = Some (make_requests w)
    ∧ waiting (localRP p2) = Some ∅
    ∧ Go RoutingLoop ∈ tr2.
Proof.
  intros Hinv Hc Hen Hwr Hcap.
  destruct (heartbeat_exit_last_agent p connw d Hinv Hc) as (q & _ & ->).
  eexists _, _, _, _. split; [done |].
  unfold startLocalRPControlServer. simpl.
  rewrite Hwr, Hen. rewrite bool_decide_false by lia.
  split; [done |]. simpl. split_and!; try done. in_trace.
Qed.

Lemma hex_token_not_reserved rnd : hex (Rand_Read rnd 16) ≠ "localrp".
Proof.
  intros Heq. apply (f_equal String.length) in Heq.
  rewrite length_hex, length_Rand_Read in Heq. simpl in Heq. lia.
Qed.

(** A pending request goes in and out of the waiting map without a trace.
    When the routing loop has bound the request of connection [c] to a token
    that was free, and no other entry belongs to that connection, the
    dispatcher of [c], waking on its timer or on a completion without error
    and scanning the map in an order that visits the token, leaves the server
    exactly as it was before the routing loop's turn. *)
Theorem pending_entry_round_trip p rq rnd q wm c order :
  requests (localRP p) = Some q ->
  waiting (localRP p) = Some wm ->
  downConns (localRP p) ≠ [] ->
  end_ rq = false ->
  (Z.of_nat (String.length (dst rq)) < 65535)%Z ->
  conn rq = Some c ->
  wm !! hex (Rand_Read rnd 16) = None ->
  (∀ k resp, wm !! k = Some resp -> conn (req resp) ≠ Some c) ->
  hex (Rand_Read rnd 16) ∈ order ->
  ∃ p1 tr,
    routingLoop_iter p rq rnd = LoopContinue p1 tr
    ∧ (∃ resp, waiting (localRP p1) = Some (<[hex (Rand_Read rnd 16) := resp]> wm)
               ∧ req resp = rq)
    ∧ ServeHTTP_select p1 (Some c) case_timeout order =
        Returned p [ConnWrite c (str_bytes timeout502)]
    ∧ ∀ resp, err resp = None ->
        ServeHTTP_select p1 (Some c) (case_cb resp) order = Returned p [].
Proof.
  intros Hq Hwm Hne Hend Hdst Hc Hfree Hother Hin.
  destruct (routingLoop_iter_dispatch p rq rnd q wm) as (connw & _ & Hit);
    [done.. |].
  set (token := hex (Rand_Read rnd 16)) in *.
  set (entry := {| err := None; localrpr := token; req := rq |}) in *.
  set (p1 := set_localRP (set_waiting (Some (<[token := entry]> wm)) (localRP p)) p)
    in *.
  assert (cleanup order (Some c) p1 = p) as Hclean.
  { unfold cleanup. simpl.
    destruct (waiting_scan_owner order (Some c) (<[token := entry]> wm) token entry)
      as [-> _]; [apply lookup_insert_eq | done | done | |].
    - intros k' resp' Hk' Hc'. destruct (decide (k' = token)); [done |].
      rewrite lookup_insert_ne in Hk' by done. by destruct (Hother k' resp').
    - rewrite delete_insert_id by done. by apply set_waiting_restore. }
  exists p1, [Go (ConnwWrite connw (control_message rnd rq))].
  split_and!; [done | by exists entry | |].
  - unfold ServeHTTP_select. by rewrite Hclean.
  - intros resp He. unfold ServeHTTP_select. by rewrite He, Hclean.
Qed.

(** Two pending requests in the waiting map. After two turns of the routing
    loop the second request is bound under its token; when the two tokens
    differ as byte strings their hex keys differ too and the first request
    is bound under its own, and when the random source repeats a token the
    second binding has replaced the first, which is no longer in the map. *)
Theorem two_turns_of_the_routing_loop p rq1 rq2 rnd1 rnd2 q wm :
  requests (localRP p) = Some q ->
  waiting (localRP p) = Some wm ->
  downConns (localRP p) ≠ [] ->
  end_ rq1 = false -> end_ rq2 = false ->
  (Z.of_nat (String.length (dst rq1)) < 65535)%Z ->
  (Z.of_nat (String.length (dst rq2)) < 65535)%Z ->
  ∃ p1 tr1 p2 tr2 wm2,
    routingLoop_iter p rq1 rnd1 = LoopContinue p1 tr1
    ∧ routingLoop_iter p1 rq2 rnd2 = LoopContinue p2 tr2
    ∧ waiting (localRP p2) = Some wm2
    ∧ (req <$> wm2 !! hex (Rand_Read rnd2 16)) = Some rq2
    ∧ (Rand_Read rnd1 16 ≠ Rand_Read rnd2 16 ->
         hex (Rand_Read rnd1 16) ≠ hex (Rand_Read rnd2 16)
         ∧ (req <$> wm2 !! hex (Rand_Read rnd1 16)) = Some rq1)
    ∧ (Rand_Read rnd1 16 = Rand_Read rnd2 16 ->
         wm2 = <[hex (Rand_Read rnd2 16) :=
                   {| err := None; localrpr := hex (Rand_Read rnd2 16);
                      req := rq2 |}]> wm).
Proof.
  intros Hq Hwm Hne Hend1 Hend2 Hdst1 Hdst2.
  destruct (routingLoop_iter_dispatch p rq1 rnd1 q wm) as (c1 & _ & Hit1);
    [done.. |].
  set (wm1 := <[hex (Rand_Read rnd1 16) :=
                  {| err := None; localrpr := hex (Rand_Read rnd1 16);
                     req := rq1 |}]> wm) in *.
  set (p1 := set_localRP (set_waiting (Some wm1) (localRP p)) p) in *.
  destruct (routingLoop_iter_dispatch p1 rq2 rnd2 q wm1) as (c2 & _ & Hit2);
    [done.. |].
  eexists _, _, _, _, _. split_and!; [exact Hit1 | exact Hit2 | done | | |].
  - by rewrite lookup_insert_eq.
  - intros Hne12.
    assert (hex (Rand_Read rnd1 16) ≠ hex (Rand_Read rnd2 16)) as Hk.
    { intros Heq. apply Hne12. apply hex_inj; [apply Forall_Rand_Read.. | done]. }
    split; [done |]. rewrite lookup_insert_ne by done.
    unfold wm1. by rewrite lookup_insert_eq.
  - intros Heq. unfold wm1. rewrite Heq. apply insert_insert_eq.
Qed.

Section rendezvous.
Context `{Externals}.

(** The rendezvous. Once the routing loop has bound a pending request to a
    token, an agent's follow-up request that decodes to the hex form of that
    token, passes the auth gate and has the LocalRP option set (and not DNS)
    is answered on its own hijacked socket with the success response, is
    bridged to the connection of that very pending request, and the waiting
    dispatcher is signalled on that request's completion channel with the
    entry, in this order; the server state is the one the routing loop
    left. A token is never taken for the reserved destination of a
    registration. *)
Theorem follow_up_reaches_pending_request p rq rnd q wm cb r w addr cr c :
  requests (localRP p) = Some q ->
  waiting (localRP p) = Some wm ->
  downConns (localRP p) ≠ [] ->
  end_ rq = false ->
  (Z.of_nat (String.length (dst rq)) < 65535)%Z ->
  callback rq = Some cb ->
  SplitHostPort (RemoteAddr r) = Some addr ->
  decoded r = Some (hex (Rand_Read rnd 16), cr) ->
  auth_gate p cr = true ->
  IsSet (Opt cr) doDNS = false ->
  IsSet (Opt cr) doLocalRP = true ->
  hijack w = Some c ->
  ∃ p1 tr1 ioc,
    routingLoop_iter p rq rnd = LoopContinue p1 tr1
    ∧ ServeHTTP p1 r w =
        Returned p1
          [ConnWrite c (str_bytes (replyGood_buffer cr r w));
           Go (Bridge (NetConn (Some c)) (NetConn (conn rq)) (iv cr) ioc);
           SendResp cb {| err := None; localrpr := hex (Rand_Read rnd 16);
                          req := rq |}].
Proof.
  intros Hq Hwm Hne Hend Hdst Hcb Hs Hd Hg Hdns Hlrp Hh.
  destruct (routingLoop_iter_dispatch p rq rnd q wm) as (connw & _ & Hit);
    [done.. |].
  eexists _, _, _. split; [exact Hit |].
  rewrite (ServeHTTP_decoded _ _ _ _ _ _ Hs Hd).
  replace (auth_gate _ cr) with true by done.
  unfold dispatch, doLocalRP_branch, replyGood. rewrite Hdns, Hlrp, Hh.
  rewrite decide_False by apply hex_token_not_reserved.
  simpl. rewrite lookup_insert_eq. simpl. by rewrite Hcb.
Qed.
End rendezvous.

(** ** The listening address *)

Lemma digit_val_digit n :
  (0 <= n)%Z ->
  digit_val (ascii_of_nat (48 + Z.to_nat (n mod 10))) = Some (n mod 10)%Z.
Proof.
  intros Hn. pose proof (Z.mod_pos_bound n 10 ltac:(lia)) as Hm.
  rewrite <- (Z2Nat.id (n mod 10)) at 2 by lia.
  assert (Z.to_nat (n mod 10) < 10) as Hk by lia. revert Hk.
  generalize (Z.to_nat (n mod 10)). intros k Hk.
  do 10 (destruct k as [|k]; [reflexivity |]). lia.
Qed.

Lemma parse_digits_digits fuel n acc :
  (0 <= n < 10 ^ Z.of_nat fuel)%Z ->
  ∃ k : nat, ∀ a,
    parse_digits a (digits fuel n acc) = parse_digits (a * 10 ^ Z.of_nat k + n) acc.
Proof.
  revert n acc. induction fuel as [|fuel IH]; intros n acc Hn.
  - exists 0. intros a. simpl in *. f_equal. lia.
  - rewrite Nat2Z.inj_succ, Z.pow_succ_r in Hn by lia. cbn [digits].
    destruct (Z.ltb_spec n 10) as [Hlt|Hge].
    + exists 1. intros a. cbn [parse_digits]. rewrite digit_val_digit by lia.
      f_equal. change (10 ^ Z.of_nat 1)%Z with 10%Z.
      rewrite Z.mod_small by lia. lia.
    + destruct (IH (n / 10)%Z
                  (String (ascii_of_nat (48 + Z.to_nat (n mod 10))) acc))
        as [k Hk]; [Z.div_mod_to_equations; lia |].
      exists (S k). intros a. rewrite Hk. cbn [parse_digits].
      rewrite digit_val_digit by lia. f_equal.
      rewrite Nat2Z.inj_succ, Z.pow_succ_r by lia.
      Z.div_mod_to_equations; lia.
Qed.

Lemma digits_head fuel n acc :
  (0 <= n)%Z -> 0 < fuel ->
  ∃ c r d, digits fuel n acc = String c r ∧ digit_val c = Some d.
Proof.
  revert n acc. induction fuel as [|[|fuel] IH]; intros n acc Hn Hf; [lia | |].
  - simpl. destruct (n <? 10)%Z; eexists _, _, _; split; try done;
      by apply digit_val_digit.
  - change (digits (S (S fuel)) n acc)
      with (if (n <? 10)%Z
            then String (ascii_of_nat (48 + Z.to_nat (n mod 10))) acc
            else digits (S fuel) (n / 10)
                   (String (ascii_of_nat (48 + Z.to_nat (n mod 10))) acc)).
    destruct (n <? 10)%Z.
    + eexists _, _, _. split; [done |]. by apply digit_val_digit.
    + apply IH; [Z.div_mod_to_equations; lia | lia].
Qed.

Lemma Atoi_unsigned c r d :
  digit_val c = Some d ->
  Atoi (String c r) =
    match parse_digits 0 (String c r) with
    | Some n => if ((- 2 ^ 63 <=? n) && (n <? 2 ^ 63))%Z then Some n else None
    | None => None
    end.
Proof.
  intros Hd. destruct c as [[] [] [] [] [] [] [] []];
    try (by vm_compute in Hd); reflexivity.
Qed.

Lemma parse_digits_bad s c acc :
  c ∈ list_ascii_of_string s -> digit_val c = None -> parse_digits acc s = None.
Proof.
  revert acc. induction s as [|c' s IH]; intros acc Hin Hc; simpl in *.
  - by apply elem_of_nil in Hin.
  - apply elem_of_cons in Hin as [<-|Hin]; [by rewrite Hc |].
    destruct (digit_val c'); [by apply IH | done].
Qed.

Lemma Atoi_colon addr :
  ":"%char ∈ list_ascii_of_string addr -> Atoi addr = None.
Proof.
  destruct addr as [|c r]; [by intros ?%elem_of_nil |]. simpl.
  intros Hin.
  assert (∀ s, ":"%char ∈ list_ascii_of_string s ->
            match s with
            | EmptyString => None
            | _ => match parse_digits 0 s with
                   | Some n =>
                       (λ v, if ((- 2 ^ 63 <=? v) && (v <? 2 ^ 63))%Z
                             then Some v else None) n
                   | None => @None Z
                   end
            end = None) as Hpos.
  { intros s Hs. destruct s; [done |].
    by rewrite (parse_digits_bad _ ":"%char). }
  assert (∀ s, ":"%char ∈ list_ascii_of_string s ->
            match s with
            | EmptyString => None
            | _ => match parse_digits 0 s with
                   | Some n =>
                       (λ v, if ((- 2 ^ 63 <=? v) && (v <? 2 ^ 63))%Z
                             then Some v else None) (- n)%Z
                   | None => @None Z
                   end
            end = None) as Hneg.
  { intros s Hs. destruct s; [done |].
    by rewrite (parse_digits_bad _ ":"%char). }
  apply elem_of_cons in Hin.
  destruct c as [[] [] [] [] [] [] [] []];
    first [ by apply (Hpos (String _ r)); apply elem_of_cons
          | destruct Hin as [Hin|Hin]; [discriminate |];
            first [exact (Hpos r Hin) | exact (Hneg r Hin)] ].
Qed.

(** The listening address [NewServer] keeps. An address that is the decimal
    form of an int is a port: the server listens on all interfaces at that
    port. An address with a colon in it, such as host:port or :port, is kept
    as it is, and so is the empty address. *)
Theorem NewServer_Localaddr_port_or_address :
  (∀ n, (- 2 ^ 63 <= n < 2 ^ 63)%Z ->
        NewServer_Localaddr (Itoa n) = "0.0.0.0:" +:+ Itoa n)
  ∧ (∀ addr, ":"%char ∈ list_ascii_of_string addr ->
             NewServer_Localaddr addr = addr)
  ∧ NewServer_Localaddr "" = "".
Proof.
  split_and!; [| | done].
  - intros n Hn. unfold NewServer_Localaddr.
    assert (∀ m, (0 <= m <= 2 ^ 63)%Z ->
              ∃ c r d, digits 20 m EmptyString = String c r
                       ∧ digit_val c = Some d
                       ∧ parse_digits 0 (String c r) = Some m) as Hdig.
    { intros m Hm.
      destruct (digits_head 20 m EmptyString) as (c & r & d & Heq & Hd);
        [lia.. |].
      destruct (parse_digits_digits 20 m EmptyString) as [k Hk].
      { split; [lia |]. change (10 ^ Z.of_nat 20)%Z
          with 100000000000000000000%Z.
        change (2 ^ 63)%Z with 9223372036854775808%Z in Hm. lia. }
      exists c, r, d. split_and!; [done.. |].
      rewrite <- Heq, Hk. cbn [parse_digits]. f_equal; lia. }
    assert (Atoi (Itoa n) = Some n) as ->; [| done].
    unfold Itoa. destruct (Z.ltb_spec n 0) as [Hneg|Hpos].
    + destruct (Hdig (- n)%Z) as (c & r & d & -> & Hd & Hp); [lia |].
      change (Atoi (String "-" (String c r)))
        with (match parse_digits 0 (String c r) with
              | Some m =>
                  if ((- 2 ^ 63 <=? - m) && (- m <? 2 ^ 63))%Z
                  then Some (- m)%Z else None
              | None => None
              end).
      rewrite Hp. rewrite Z.opp_involutive.
      destruct (Z.leb_spec (- 2 ^ 63) n), (Z.ltb_spec n (2 ^ 63)); simpl;
        first [done | lia].
    + destruct (Hdig n) as (c & r & d & -> & Hd & Hp); [lia |].
      rewrite (Atoi_unsigned c r d Hd), Hp.
      destruct (Z.leb_spec (- 2 ^ 63) n), (Z.ltb_spec n (2 ^ 63)); simpl;
        first [done | lia].
  - intros addr Hin. unfold NewServer_Localaddr. by rewrite Atoi_colon.
Qed.

(** ** The further properties at work on the concrete deployment *)

Section more_examples.
#[local] Existing Instance ex_externals.

(** The exit of the only agent of a session whose queue never takes the
    poison: the agent is off the lists, the handles are still set, the socket
    is not closed. *)
Lemma registered_agent_exit_witness :
  session_inv (ex_session ∅)
  ∧ 5 ∈ downConns (localRP (ex_session ∅))
  ∧ ∃ l1, heartbeat_exit_send (ex_session ∅) 5 6 false
          = BlockedForever (set_localRP l1 (ex_session ∅)) []
          ∧ downConns l1 = [] ∧ requests l1 = Some 1
          ∧ waiting l1 = Some ∅.
Proof.
  assert (session_inv (ex_session ∅)) as Hinv by (by vm_compute).
  assert (5 ∈ downConns (localRP (ex_session ∅))) as Hin by (by left).
  split_and!; [done.. |].
  destruct (registered_agent_exit (ex_session ∅) 5 6 false Hinv Hin)
    as (i & q & l1 & Hi & Hq & Hl1 & _ & _ & Hexit).
  assert (i = 0) as -> by (by destruct i as [|[|?]]).
  assert (q = 1) as -> by (by injection Hq).
  exists l1. rewrite Hexit. by subst l1.
Defined.

(** A second agent registers while the pending request of connection 7 is
    in the waiting map. *)
Lemma registration_appends_agent_witness :
  DisableLRP (config (ex_session {[ex_token := ex_entry]})) = false
  ∧ ctrl_write_err ex_world = false
  ∧ ∃ p' tr,
      startLocalRPControlServer (ex_session {[ex_token := ex_entry]}) (Some 8)
        (ex_cr "alice" 128) (getIOConfig (ex_idle None false) "alice") ex_world
      = Returned p' tr
      ∧ downConns (localRP p') = [5; 5]
      ∧ waiting (localRP p') = Some {[ex_token := ex_entry]}
      ∧ ¬ Go RoutingLoop ∈ tr.
Proof.
  split_and!; [done.. |].
  destruct (registration_appends_agent (ex_session {[ex_token := ex_entry]}) 8
              (ex_cr "alice" 128) (getIOConfig (ex_idle None false) "alice")
              ex_world)
    as (p' & tr & Hreg & _ & Hc & Hw & _ & _ & _ & Hloop & _);
    [done | done | done |].
  exists p', tr. split_and!; [done | done | by apply Hw |].
  intros Hgo. by apply Hloop in Hgo.
Defined.

(** A request with a socket to hijack on an idle server. *)
Lemma ServeHTTP_panics_only_without_socket_witness :
  hijack ex_world = Some 8
  ∧ is_Panicked (ServeHTTP (ex_idle None false) (ex_request "/register") ex_world)
    = false.
Proof.
  split; [done |].
  refine (proj1 (ServeHTTP_panics_only_without_socket (ex_idle None false)
                   (ex_request "/register") ex_world 8 _ _)); [done |].
  intros _. by vm_compute.
Defined.

(** A Connect request for UDP relay on a server that has it disabled. *)
Lemma doConnect_branch_socket_witness :
  hijack ex_world = Some 8
  ∧ ∃ tr,
      doConnect_branch
        (set_localRP (localRP (ex_idle None false))
           {| rp := None; blacklist := NewCache 128;
              localRP := localRP (ex_idle None false);
              config := {| Throttling := 0; ThrottlingMax := 0; LBindTimeout := 30;
                           LBindCap := 16; DisableUDP := true; DisableLRP := false;
                           ProxyPassAddr := ""; Users := None |} |})
        (ex_request "/plain") ex_world "example.org:53" (ex_cr "alice" 65)
      = Returned
          {| rp := None; blacklist := NewCache 128;
             localRP := localRP (ex_idle None false);
             config := {| Throttling := 0; ThrottlingMax := 0; LBindTimeout := 30;
                          LBindCap := 16; DisableUDP := true; DisableLRP := false;
                          ProxyPassAddr := ""; Users := None |} |} tr
      ∧ tr = [ConnClose 8].
Proof.
  split; [done |].
  edestruct (doConnect_branch_socket
               (set_localRP (localRP (ex_idle None false))
                  {| rp := None; blacklist := NewCache 128;
                     localRP := localRP (ex_idle None false);
                     config := {| Throttling := 0; ThrottlingMax := 0;
                                  LBindTimeout := 30; LBindCap := 16;
                                  DisableUDP := true; DisableLRP := false;
                                  ProxyPassAddr := ""; Users := None |} |})
               (ex_request "/plain") ex_world "example.org:53" (ex_cr "alice" 65) 8)
    as (tr & Hret & Hoff & _); [done | done |].
  exists tr. split; [exact Hret | by apply Hoff].
Defined.

(** A handshake without a Sec-WebSocket-Key header. *)
Lemma replyGood_websocket_size_witness :
  IsSet (Opt (ex_cr "alice" 5)) doWebSocket = true
  ∧ Header_Get {| RemoteAddr := "203.0.113.9"; RequestURI := "/plain"; Header := ∅ |}
      "Sec-WebSocket-Key" = ""
  ∧ ∃ ioc' b,
      replyGood (Some 8) (ex_cr "alice" 5) (getIOConfig (ex_idle None false) "alice")
        {| RemoteAddr := "203.0.113.9"; RequestURI := "/plain"; Header := ∅ |}
        ex_world
      = Some (ioc', [ConnWrite 8 b])
      ∧ length b = 129.
Proof.
  split_and!; [by vm_compute.. |].
  refine (proj2 (replyGood_websocket_size (ex_cr "alice" 5)
                   {| RemoteAddr := "203.0.113.9"; RequestURI := "/plain";
                      Header := ∅ |}
                   ex_world 8 (getIOConfig (ex_idle None false) "alice") _)).
  by vm_compute.
Defined.

(** Two good rounds, then a read that fails. *)
Lemma heartbeat_stops_at_first_error_witness :
  read_fails ≠ pong
  ∧ heartbeat (ex_session ∅) 5 6 [pong; pong; read_fails; pong; write_fails]
    = (heartbeat_round 5 ++ heartbeat_round 5
       ++ [Ping 5 (replicate 16 0%Z); Pong 5],
       Some (Returned (ex_idle None false) [SendReq 1 poison; ConnClose 6])).
Proof.
  assert (read_fails ≠ pong) as Hne by done.
  split; [done |].
  etrans; [exact (proj1 (heartbeat_stops_at_first_error (ex_session ∅) 5 6 2
                           read_fails [pong; write_fails] Hne)) |].
  by vm_compute.
Defined.

(** The only agent leaves with the request of connection 7 pending, and
    another one registers. *)
Lemma session_restart_witness :
  session_inv (ex_session {[ex_token := ex_entry]})
  ∧ downConns (localRP (ex_session {[ex_token := ex_entry]})) = [5]
  ∧ ∃ p1 tr1 p2 tr2,
      heartbeat_exit (ex_session {[ex_token := ex_entry]}) 5 6 = Returned p1 tr1
      ∧ startLocalRPControlServer p1 (Some 8) (ex_cr "alice" 128)
          (getIOConfig (ex_idle None false) "alice") ex_world
        = Returned p2 tr2
      ∧ waiting (localRP p2) = Some ∅.
Proof.
  assert (session_inv (ex_session {[ex_token := ex_entry]})) as Hinv
    by (unfold session_inv; simpl; split_and!; [done | split; done..]).
  split_and!; [done.. |].
  destruct (session_restart (ex_session {[ex_token := ex_entry]}) 5 6 8
              (ex_cr "alice" 128) (getIOConfig (ex_idle None false) "alice")
              ex_world Hinv)
    as (p1 & tr1 & p2 & tr2 & H1 & H2 & _ & _ & _ & Hw & _);
    [done | done | done | by vm_compute |].
  by exists p1, tr1, p2, tr2.
Defined.

(** The pending request of connection 7 on an empty waiting map. *)
Lemma pending_entry_round_trip_witness :
  conn ex_pending = Some 7
  ∧ (∅ : gmap string localRPCtrlSrvResp) !! hex (Rand_Read ex_rand 16) = None
  ∧ hex (Rand_Read ex_rand 16) ∈ [ex_token]
  ∧ ∃ p1 tr,
      routingLoop_iter (ex_session ∅) ex_pending ex_rand = LoopContinue p1 tr
      ∧ ServeHTTP_select p1 (Some 7) case_timeout [ex_token]
        = Returned (ex_session ∅) [ConnWrite 7 (str_bytes timeout502)].
Proof.
  assert (hex (Rand_Read ex_rand 16) ∈ [ex_token]) as Hin by (by left).
  split_and!; [done.. |].
  destruct (pending_entry_round_trip (ex_session ∅) ex_pending ex_rand 1 ∅ 7
              [ex_token])
    as (p1 & tr & Hit & _ & Hto & _);
    [done | done | done | done | by vm_compute | done | done | | done |].
  { intros k resp Hk. by rewrite lookup_empty in Hk. }
  by exists p1, tr.
Defined.

(** Two pending requests, the random source giving the same token twice. *)
Lemma two_turns_of_the_routing_loop_witness :
  downConns (localRP (ex_session ∅)) ≠ []
  ∧ ∃ p1 tr1 p2 tr2,
      routingLoop_iter (ex_session ∅) ex_pending ex_rand = LoopContinue p1 tr1
      ∧ routingLoop_iter p1 zeroReq ex_rand = LoopContinue p2 tr2
      ∧ waiting (localRP p2)
        = Some {[ex_token := {| err := None; localrpr := ex_token;
                                req := zeroReq |}]}.
Proof.
  assert (downConns (localRP (ex_session ∅)) ≠ []) as Hne by done.
  split; [done |].
  destruct (two_turns_of_the_routing_loop (ex_session ∅) ex_pending zeroReq
              ex_rand ex_rand 1 ∅)
    as (p1 & tr1 & p2 & tr2 & wm2 & H1 & H2 & Hw & _ & _ & Hsame);
    [done | done | done | done | done | by vm_compute | by vm_compute |].
  exists p1, tr1, p2, tr2. split_and!; [done | done |].
  rewrite Hw, (Hsame eq_refl). by f_equal.
Defined.

(** The follow-up of the agent for the pending request of connection 7. *)
Lemma follow_up_reaches_pending_request_witness :
  decoded (ex_request "/fulfil")
  = Some (hex (Rand_Read ex_rand 16), ex_cr "alice" 128)
  ∧ callback ex_pending = Some 3
  ∧ ∃ p1 tr1 ioc,
      routingLoop_iter (ex_session ∅) ex_pending ex_rand = LoopContinue p1 tr1
      ∧ ServeHTTP p1 (ex_request "/fulfil") ex_world
        = Returned p1
            [ConnWrite 8
               (str_bytes (replyGood_buffer (ex_cr "alice" 128)
                             (ex_request "/fulfil") ex_world));
             Go (Bridge (NetConn (Some 8)) (NetConn (Some 7)) [1; 2; 3]%Z ioc);
             SendResp 3 ex_entry].
Proof.
  split_and!; [by vm_compute | done |].
  destruct (follow_up_reaches_pending_request (ex_session ∅) ex_pending ex_rand
              1 ∅ 3 (ex_request "/fulfil") ex_world "203.0.113.9"
              (ex_cr "alice" 128) 8)
    as (p1 & tr1 & ioc & Hit & Hserve);
    [done | done | done | done | by vm_compute | done | by vm_compute
    | by vm_compute | by vm_compute | by vm_compute | by vm_compute | done |].
  by exists p1, tr1, ioc.
Defined.
End more_examples.
